(** * SPOS scheduling strategies: a shallow embedding of
      [V3/SPOS/os_scheduling_strategies.c]

    The C functions are translated one by one.  Array accesses may fault
    (an index outside the array), loops that are not plain counted [for]
    loops run on fuel, and the global [SchedulingInfo] is passed in and
    handed back explicitly.  The button readers of [os_input.c] touch
    hardware registers only and are not part of the scheduler. *)

From Stdlib Require Import ZArith List Bool Lia.
From stdpp Require Import base list.

Local Open Scope Z_scope.

(** ** Outcomes of a C call *)

Inductive result (A : Type) : Type :=
| Ok (a : A)
| Fault
| OutOfFuel.

Arguments Ok {A} a.
Arguments Fault {A}.
Arguments OutOfFuel {A}.

Definition bind {A B : Type} (m : result A) (k : A -> result B) : result B :=
  match m with
  | Ok a => k a
  | Fault => Fault
  | OutOfFuel => OutOfFuel
  end.

Notation "'let*' x ':=' m 'in' k" := (bind m (fun x => k))
  (at level 10, x name, m at level 100, k at level 200).
Notation "'let*' ' p ':=' m 'in' k" := (bind m (fun p => k))
  (at level 10, p strict pattern, m at level 100, k at level 200).

(** ** Machine integers and arrays *)

(** [uint8_t] arithmetic: the value is reduced modulo 2^8 when stored. *)
Definition uint8 (z : Z) : Z := z mod 256.

(** [a[i]] as an rvalue. *)
Definition load {A : Type} (a : list A) (i : Z) : result A :=
  if i <? 0 then Fault
  else match a !! Z.to_nat i with
       | Some x => Ok x
       | None => Fault
       end.

(** [a[i] = x]. *)
Definition store {A : Type} (a : list A) (i : Z) (x : A) : result (list A) :=
  if (0 <=? i) && (i <? Z.of_nat (length a))
  then Ok (<[Z.to_nat i := x]> a)
  else Fault.

(** [for (int i = lo; i < hi; i++) body], threading the loop state. *)
Fixpoint for_each {S : Type} (body : Z -> S -> result S)
    (idx : list Z) (s : S) : result S :=
  match idx with
  | [] => Ok s
  | i :: idx' => let* s' := body i s in for_each body idx' s'
  end.

Definition for_range {S : Type} (lo hi : Z) (body : Z -> S -> result S)
    (s : S) : result S :=
  for_each body (seqZ lo (hi - lo)) s.

(** ** Data model *)

(** Modelled from the spec: [defines.h] is not among the sources.  The spec
    speaks of a table of 8 slots and of N-2 = 6 probes, and the source
    itself iterates the table with the literal bound 8. *)
Definition MAX_NUMBER_OF_PROCESSES : Z := 8.

Definition ProcessID : Type := Z.

Inductive ProcessState : Type :=
| OS_PS_UNUSED
| OS_PS_READY
| OS_PS_RUNNING
| OS_PS_BLOCKED.

#[global] Instance ProcessState_eq_dec : EqDecision ProcessState.
Proof. solve_decision. Defined.

Record Process : Type := mkProcess {
  state : ProcessState;
  priority : Z
}.

Inductive SchedulingStrategy : Type :=
| OS_SS_EVEN
| OS_SS_RANDOM
| OS_SS_RUN_TO_COMPLETION
| OS_SS_ROUND_ROBIN
| OS_SS_INACTIVE_AGING.

#[global] Instance SchedulingStrategy_eq_dec : EqDecision SchedulingStrategy.
Proof. solve_decision. Defined.

(** Modelled from the spec: [os_scheduling_strategies.h] is not among the
    sources.  The spec gives the scheduling state two parts, the countdown
    [Zeitschiebe] and one [age] entry per table slot; both hold values of
    the 8-bit priority type. *)
Record SchedulingInformation : Type := mkSchedulingInformation {
  Zeitschiebe : Z;
  age : list Z
}.

Definition set_Zeitschiebe (z : Z) (si : SchedulingInformation) :
    SchedulingInformation :=
  {| Zeitschiebe := z; age := age si |}.

Definition set_age (a : list Z) (si : SchedulingInformation) :
    SchedulingInformation :=
  {| Zeitschiebe := Zeitschiebe si; age := a |}.

Definition is_READY (p : Process) : bool :=
  bool_decide (state p = OS_PS_READY).

Definition is_RUNNING (p : Process) : bool :=
  bool_decide (state p = OS_PS_RUNNING).

(** ** Reset operations *)

(** [os_getProcessSlot(os_getCurrentProc())] lives in the kernel; the kernel's
    table and its current process id are passed in. *)
Definition os_resetSchedulingInformation (os_processes : list Process)
    (currentProc : ProcessID) (SchedulingInfo : SchedulingInformation)
    (strategy : SchedulingStrategy) : result SchedulingInformation :=
  if decide (strategy = OS_SS_ROUND_ROBIN) then
    let* p := load os_processes currentProc in
    Ok (set_Zeitschiebe (priority p) SchedulingInfo)
  else if decide (strategy = OS_SS_INACTIVE_AGING) then
    let* a := for_range 0 MAX_NUMBER_OF_PROCESSES
                (fun i a => store a i 0) (age SchedulingInfo) in
    Ok (set_age a SchedulingInfo)
  else Ok SchedulingInfo.

Definition os_resetProcessSchedulingInformation
    (SchedulingInfo : SchedulingInformation) (id : ProcessID) :
    result SchedulingInformation :=
  let* a := store (age SchedulingInfo) id 0 in
  Ok (set_age a SchedulingInfo).

(** ** The scan loop shared by Even, RoundRobin and RunToCompletion

    The three functions contain the same [do { ... } while (counter < 6)]
    loop.  [Some i] is the [return i] inside the loop; [None] is leaving the
    loop through its condition. *)
Fixpoint scan_loop (fuel : nat) (processes : list Process)
    (i counter : Z) : result (option ProcessID) :=
  match fuel with
  | O => OutOfFuel
  | S fuel' =>
      let* p := load processes i in
      if is_READY p then Ok (Some i)
      else
        let i' := if i =? MAX_NUMBER_OF_PROCESSES - 1 then 1
                  else uint8 (i + 1) in
        let counter' := uint8 (counter + 1) in
        if counter' <? 6 then scan_loop fuel' processes i' counter'
        else Ok None
  end.

Definition os_Scheduler_Even (fuel : nat) (processes : list Process)
    (current : ProcessID) : result ProcessID :=
  let counter := 0 in
  let i := if current =? MAX_NUMBER_OF_PROCESSES - 1 then 1
           else uint8 (current + 1) in
  let* r := scan_loop fuel processes i counter in
  match r with
  | Some i => Ok i
  | None => Ok 0
  end.

(** ** Random *)

(** Modelled from the spec: [os_getNumberOfReadyProcs] is a kernel function
    that is not among the sources.  The spec has the random index drawn
    "into that set", the set of READY real slots (slot 0 excluded), so the
    helper is taken to return the size of that set. *)
Definition os_getNumberOfReadyProcs (os_processes : list Process) : Z :=
  Z.of_nat (length (filter (fun p => is_READY p = true) (drop 1 os_processes))).

(** [rnd] is the value returned by [rand()].  The variable-length array
    [procIndex] starts uninitialised ([None]); reading such an element is a
    fault, and so is a remainder by zero.  An array of length zero is
    accepted, as GNU C does; it is never accessed. *)
Definition os_Scheduler_Random (rnd : Z) (processes : list Process)
    (current : ProcessID) : result ProcessID :=
  let numOfReadyProc := uint8 (os_getNumberOfReadyProcs processes) in
  let procIndex : list (option Z) :=
    replicate (Z.to_nat numOfReadyProc) None in
  let* '(procIndex, i) :=
    for_range 1 MAX_NUMBER_OF_PROCESSES
      (fun j '(procIndex, i) =>
         let* p := load processes j in
         if is_READY p then
           let* procIndex' := store procIndex i (Some j) in
           Ok (procIndex', uint8 (i + 1))
         else Ok (procIndex, i))
      (procIndex, 0) in
  if i =? 0 then Ok 0
  else if numOfReadyProc =? 0 then Fault
  else
    let a := uint8 (Z.rem rnd numOfReadyProc) in
    let* v := load procIndex a in
    match v with
    | Some j => Ok j
    | None => Fault
    end.

(** ** RoundRobin *)

(** The loop is the scan loop again; on [return i] it first stores
    [processes[i].priority] in [Zeitschiebe]. *)
Definition os_Scheduler_RoundRobin (fuel : nat)
    (SchedulingInfo : SchedulingInformation) (processes : list Process)
    (current : ProcessID) : result (ProcessID * SchedulingInformation) :=
  let counter := 0 in
  if 0 <? Zeitschiebe SchedulingInfo then
    Ok (current,
        set_Zeitschiebe (uint8 (Zeitschiebe SchedulingInfo - 1)) SchedulingInfo)
  else
    let i := if current =? MAX_NUMBER_OF_PROCESSES - 1 then 1
             else uint8 (current + 1) in
    let* r := scan_loop fuel processes i counter in
    match r with
    | Some i =>
        let* p := load processes i in
        Ok (i, set_Zeitschiebe (priority p) SchedulingInfo)
    | None => Ok (0, SchedulingInfo)
    end.

(** ** InactiveAging *)

(** Which arm of the [if / else if / else if] chain in the selection loop
    fires. *)
Inductive IA_branch : Type :=
| Branch_older
| Branch_higher_priority
| Branch_third
| Branch_keep.

(** The three conditions, with C's short-circuit [&&]: an operand is only
    evaluated (and its array only read) when the operands before it hold. *)
Definition IA_cond1 (processes : list Process) (a : list Z)
    (i Max : Z) : result bool :=
  let* p := load processes i in
  if is_READY p then
    let* ai := load a i in
    let* am := load a Max in
    Ok (am <? ai)
  else Ok false.

Definition IA_cond2 (processes : list Process) (a : list Z)
    (i Max : Z) : result bool :=
  let* p := load processes i in
  if is_READY p then
    let* ai := load a i in
    let* am := load a Max in
    if ai =? am then
      let* pi := load processes i in
      let* pm := load processes Max in
      Ok (priority pm <? priority pi)
    else Ok false
  else Ok false.

Definition IA_cond3 (processes : list Process) (a : list Z)
    (i Max : Z) : result bool :=
  let* p := load processes i in
  if is_READY p then
    let* ai := load a i in
    let* am := load a Max in
    if ai =? am then
      let* pi := load processes i in
      let* pm := load processes Max in
      if priority pm <? priority pi then Ok (i <? Max) else Ok false
    else Ok false
  else Ok false.

Definition IA_select_branch (processes : list Process) (a : list Z)
    (i Max : Z) : result IA_branch :=
  let* c1 := IA_cond1 processes a i Max in
  if c1 then Ok Branch_older
  else
    let* c2 := IA_cond2 processes a i Max in
    if c2 then Ok Branch_higher_priority
    else
      let* c3 := IA_cond3 processes a i Max in
      if c3 then Ok Branch_third
      else Ok Branch_keep.

Definition IA_select_body (processes : list Process) (a : list Z)
    (i Max : Z) : result Z :=
  let* b := IA_select_branch processes a i Max in
  match b with
  | Branch_older => Ok i
  | Branch_higher_priority => Ok i
  | Branch_third => Ok i
  | Branch_keep => Ok Max
  end.

Definition IA_aging_body (processes : list Process) (current : ProcessID)
    (i : Z) (a : list Z) : result (list Z) :=
  if negb (current =? i) then
    let* p := load processes i in
    let* ai := load a i in
    store a i (uint8 (ai + priority p))
  else Ok a.

Definition os_Scheduler_InactiveAging
    (SchedulingInfo : SchedulingInformation) (processes : list Process)
    (current : ProcessID) : result (ProcessID * SchedulingInformation) :=
  let Max := 0 in
  if 0 <? Zeitschiebe SchedulingInfo then
    let SchedulingInfo :=
      set_Zeitschiebe (uint8 (Zeitschiebe SchedulingInfo - 1)) SchedulingInfo in
    let* a := for_range 1 8 (IA_aging_body processes current)
                (age SchedulingInfo) in
    Ok (current, set_age a SchedulingInfo)
  else
    let* pc := load processes current in
    let* a := store (age SchedulingInfo) current (priority pc) in
    let* Max := for_range 1 8 (IA_select_body processes a) Max in
    Ok (Max, set_age a SchedulingInfo).

(** ** RunToCompletion *)

(** [counter] is declared without an initialiser; [counter0] is the value it
    happens to hold when the loop is entered. *)
Definition os_Scheduler_RunToCompletion (fuel : nat) (counter0 : Z)
    (processes : list Process) (current : ProcessID) : result ProcessID :=
  let counter := counter0 in
  let i := 1 in
  let* pc := load processes current in
  if is_RUNNING pc then Ok current
  else
    let* r := scan_loop fuel processes i counter in
    match r with
    | Some i => Ok i
    | None => Ok 0
    end.

(** ** Well-formed inputs and pure views of the arrays *)

(** The table and the age array have one entry per slot. *)
Definition table_wf (processes : list Process) : Prop :=
  Z.of_nat (length processes) = MAX_NUMBER_OF_PROCESSES.

Definition info_wf (si : SchedulingInformation) : Prop :=
  Z.of_nat (length (age si)) = MAX_NUMBER_OF_PROCESSES.

Definition in_range (id : ProcessID) : Prop :=
  0 <= id < MAX_NUMBER_OF_PROCESSES.

Definition real_slot (id : ProcessID) : Prop :=
  1 <= id < MAX_NUMBER_OF_PROCESSES.

(** Slot [i] of the table exists and is READY (resp. RUNNING). *)
Definition slot_ready (processes : list Process) (i : Z) : bool :=
  match load processes i with
  | Ok p => is_READY p
  | _ => false
  end.

Definition slot_running (processes : list Process) (i : Z) : bool :=
  match load processes i with
  | Ok p => is_RUNNING p
  | _ => false
  end.

Definition prio_of (processes : list Process) (i : Z) : Z :=
  match load processes i with
  | Ok p => priority p
  | _ => 0
  end.

Definition age_of (a : list Z) (i : Z) : Z :=
  match load a i with
  | Ok x => x
  | _ => 0
  end.

(** The successor of a slot in the scan loop, and the slots visited by [n]
    successive probes starting at [i]. *)
Definition next_slot (i : Z) : Z :=
  if i =? MAX_NUMBER_OF_PROCESSES - 1 then 1 else uint8 (i + 1).

Fixpoint probe_seq (n : nat) (i : Z) : list Z :=
  match n with
  | O => []
  | S n' => i :: probe_seq n' (next_slot i)
  end.

(** Number of probes the scan loop makes when entered with [counter = c]
    and no READY slot in its way. *)
Definition scan_probes (c : Z) : nat :=
  if c <? 6 then Z.to_nat (6 - c)
  else if c =? 255 then 7%nat
  else 1%nat.

(** The slots probed by Even and RoundRobin when called with [current]. *)
Definition scan_window (current : ProcessID) : list Z :=
  probe_seq 6 (next_slot current).

(** What a scan reports: the first READY slot of the probed sequence, or 0. *)
Definition first_ready (processes : list Process) (probed : list Z) : ProcessID :=
  match find (slot_ready processes) probed with
  | Some i => i
  | None => 0
  end.

(** The age array as the selection loop sees it: [age[current]] has just
    been overwritten by the priority of [current]. *)
Definition reseeded (si : SchedulingInformation) (processes : list Process)
    (current : ProcessID) : list Z :=
  <[Z.to_nat current := prio_of processes current]> (age si).

(** [beats processes a x y]: slot [y] replaces candidate [x] in the loop,
    being older, or as old and of higher priority. *)
Definition beats (processes : list Process) (a : list Z) (x y : Z) : Prop :=
  age_of a x < age_of a y
  \/ (age_of a x = age_of a y /\ prio_of processes x < prio_of processes y).

Definition beats_or_ties (processes : list Process) (a : list Z) (x y : Z) : Prop :=
  beats processes a x y
  \/ (age_of a x = age_of a y /\ prio_of processes x = prio_of processes y).

(** The order of the docstring: age descending, then priority descending,
    then slot index ascending. *)
Definition precedes (processes : list Process) (a : list Z) (x y : Z) : Prop :=
  age_of a x > age_of a y
  \/ (age_of a x = age_of a y
      /\ (prio_of processes x > prio_of processes y
          \/ (prio_of processes x = prio_of processes y /\ x < y))).

(** State of the selection loop before iteration [k]. *)
Definition IA_scan_inv (processes : list Process) (a : list Z)
    (k Max : Z) : Prop :=
  0 <= Max < k
  /\ (Max <> 0 -> slot_ready processes Max = true /\ beats processes a 0 Max)
  /\ (forall j, 1 <= j < k -> slot_ready processes j = true ->
        beats_or_ties processes a j Max
        /\ (j < Max -> beats processes a j Max)).

(** READY processes among the slots [1 .. j-1]. *)
Definition ready_upto (processes : list Process) (j : Z) : Z :=
  Z.of_nat (length (filter (fun p => is_READY p = true)
                      (take (Z.to_nat (j - 1)) (drop 1 processes)))).

(** State of the collecting loop of Random before iteration [j]. *)
Definition Random_inv (processes : list Process) (j : Z)
    (s : list (option Z) * Z) : Prop :=
  Z.of_nat (length (fst s)) = os_getNumberOfReadyProcs processes
  /\ snd s = ready_upto processes j
  /\ forall m, 0 <= m < snd s ->
       exists v, load (fst s) m = Ok (Some v) /\ 1 <= v < j.

(** ** Successive ticks *)

(** Modelled from the spec: the kernel's tick loop is not among the sources.
    The spec has the kernel call the active selector once per tick, "passing
    the live table and the currently-running slot index", the selector
    returning "the slot to run next".  [RoundRobin_ticks n] makes [n] such
    calls on an unchanged table and collects the slots returned. *)
Fixpoint RoundRobin_ticks (n : nat) (fuel : nat) (si : SchedulingInformation)
    (processes : list Process) (current : ProcessID) :
    result (list ProcessID * SchedulingInformation) :=
  match n with
  | O => Ok ([], si)
  | S n' =>
      let* '(next, si') := os_Scheduler_RoundRobin fuel si processes current in
      let* '(rest, si'') := RoundRobin_ticks n' fuel si' processes next in
      Ok (next :: rest, si'')
  end.

(** ** Concrete tables *)

Definition unused_slot : Process := mkProcess OS_PS_UNUSED 0.

Definition ready_slot (p : Z) : Process := mkProcess OS_PS_READY p.

(** The scenario of the spec: slots 2 and 5 READY with priorities 3 and 1. *)
Definition table_2_5 : list Process :=
  [unused_slot; unused_slot; ready_slot 3; unused_slot;
   unused_slot; ready_slot 1; unused_slot; unused_slot].

(** Only the last slot is READY. *)
Definition table_only_7 : list Process :=
  [unused_slot; unused_slot; unused_slot; unused_slot;
   unused_slot; unused_slot; unused_slot; ready_slot 2].

(** As [table_only_7], with the idle process of slot 0 marked RUNNING. *)
Definition table_idle_running : list Process :=
  [mkProcess OS_PS_RUNNING 2; unused_slot; unused_slot; unused_slot;
   unused_slot; unused_slot; unused_slot; ready_slot 2].

(** Slots 1 and 2 READY with the same priority; [idle] is the record of
    slot 0. *)
Definition table_1_2 (idle : Process) : list Process :=
  [idle; ready_slot 2; ready_slot 2; unused_slot;
   unused_slot; unused_slot; unused_slot; unused_slot].

(** Slot 1 READY with priority 2; [idle] is the record of slot 0. *)
Definition table_1 (idle : Process) : list Process :=
  [idle; ready_slot 2; unused_slot; unused_slot;
   unused_slot; unused_slot; unused_slot; unused_slot].

(** The scheduling state after a full reset. *)
Definition fresh_info : SchedulingInformation :=
  mkSchedulingInformation 0 (replicate 8 0).

(** The scheduling state with countdown [z] and ages [a]. *)
Definition info_with (z : Z) (a : list Z) : SchedulingInformation :=
  mkSchedulingInformation z a.

(** ** Random with the size of [procIndex] left open *)

(** The body of [os_Scheduler_Random] for any value [numOfReadyProc] that
    the call of [os_getNumberOfReadyProcs()] may have stored. *)
Definition os_Scheduler_Random_with (numOfReadyProc : Z) (rnd : Z)
    (processes : list Process) (current : ProcessID) : result ProcessID :=
  let procIndex : list (option Z) :=
    replicate (Z.to_nat numOfReadyProc) None in
  let* '(procIndex, i) :=
    for_range 1 MAX_NUMBER_OF_PROCESSES
      (fun j '(procIndex, i) =>
         let* p := load processes j in
         if is_READY p then
           let* procIndex' := store procIndex i (Some j) in
           Ok (procIndex', uint8 (i + 1))
         else Ok (procIndex, i))
      (procIndex, 0) in
  if i =? 0 then Ok 0
  else if numOfReadyProc =? 0 then Fault
  else
    let a := uint8 (Z.rem rnd numOfReadyProc) in
    let* v := load procIndex a in
    match v with
    | Some j => Ok j
    | None => Fault
    end.

(** The READY real slots, in increasing order. *)
Definition ready_slots (processes : list Process) : list Z :=
  filter (fun j => slot_ready processes j = true)
    (seqZ 1 (MAX_NUMBER_OF_PROCESSES - 1)).

(** The body of the collecting loop of Random, and the array it has filled
    when it started from [replicate n None] and met no fault: the READY slots
    first, the rest still uninitialised. *)
Definition Random_collect_body (processes : list Process) (j : Z)
    (s : list (option Z) * Z) : result (list (option Z) * Z) :=
  let '(procIndex, i) := s in
  let* p := load processes j in
  if is_READY p then
    let* procIndex' := store procIndex i (Some j) in
    Ok (procIndex', uint8 (i + 1))
  else Ok (procIndex, i).

(** ** Successive ticks of InactiveAging *)

(** Modelled from the spec: as [RoundRobin_ticks], the kernel calling
    InactiveAging once per tick on an unchanged table, each call receiving
    the slot returned by the one before. *)
Fixpoint InactiveAging_ticks (n : nat) (si : SchedulingInformation)
    (processes : list Process) (current : ProcessID) :
    result (list ProcessID * SchedulingInformation) :=
  match n with
  | O => Ok ([], si)
  | S n' =>
      let* '(next, si') := os_Scheduler_InactiveAging si processes current in
      let* '(rest, si'') := InactiveAging_ticks n' si' processes next in
      Ok (next :: rest, si'')
  end.

(** ** Buttons ([os_input.c]) *)

(** [PINC] is a volatile input register: every evaluation reads the pins
    anew.  [os_getInput] evaluates it twice; [pinc1] and [pinc2] are the two
    values read.  [0b11] is 3 and [0b11000000] is 192. *)
Definition os_getInput (pinc1 pinc2 : Z) : Z :=
  let x := uint8 (Z.land (Z.lnot pinc1) 3) in
  let x := uint8 (Z.lor x (Z.shiftr (Z.land (Z.lnot pinc2) 192) 4)) in
  x.

(** The direction and output registers of port C. *)
Record port_C : Type := mkPortC {
  DDRC : Z;
  PORTC : Z
}.

(** [0b00111100] is 60 and [0b11000011] is 195. *)
Definition os_initInput (regs : port_C) : port_C :=
  let ddrc := uint8 (Z.land (DDRC regs) 60) in
  let portc := uint8 (Z.lor (PORTC regs) 195) in
  {| DDRC := ddrc; PORTC := portc |}.

(** The busy-wait loops call [os_getInput] once per iteration.  [reads] is
    what the successive calls will read from [PINC], a pair per call; the
    loops hand back the reads not yet consumed, and run out of fuel when the
    reads end before the loop does. *)
Fixpoint os_waitForNoInput (reads : list (Z * Z)) : result (list (Z * Z)) :=
  match reads with
  | [] => OutOfFuel
  | (pinc1, pinc2) :: reads' =>
      if negb (os_getInput pinc1 pinc2 =? 0) then os_waitForNoInput reads'
      else Ok reads'
  end.

Fixpoint os_waitForInput (reads : list (Z * Z)) : result (list (Z * Z)) :=
  match reads with
  | [] => OutOfFuel
  | (pinc1, pinc2) :: reads' =>
      if os_getInput pinc1 pinc2 =? 0 then os_waitForInput reads'
      else Ok reads'
  end.

(** * Basic facts *)

Section Arrays.
Context {A : Type}.
Implicit Types (a : list A) (i : Z) (x : A).

Lemma load_in_bounds a i :
  0 <= i < Z.of_nat (length a) -> exists x, load a i = Ok x.
Proof.
  intros Hi. unfold load.
  destruct (Z.ltb_spec i 0) as [?|_]; [lia|].
  destruct (a !! Z.to_nat i) as [x|] eqn:E; [eauto|].
  apply lookup_ge_None in E. lia.
Qed.

Lemma load_Ok_inv a i x :
  load a i = Ok x -> 0 <= i < Z.of_nat (length a) /\ a !! Z.to_nat i = Some x.
Proof.
  unfold load. destruct (Z.ltb_spec i 0); [discriminate|].
  destruct (a !! Z.to_nat i) as [y|] eqn:E; [|discriminate].
  intros [= ->]. split; [|done].
  apply lookup_lt_Some in E. lia.
Qed.

Lemma store_in_bounds a i x :
  0 <= i < Z.of_nat (length a) -> store a i x = Ok (<[Z.to_nat i := x]> a).
Proof.
  intros Hi. unfold store.
  destruct (Z.leb_spec 0 i); [|lia].
  destruct (Z.ltb_spec i (Z.of_nat (length a))); [done|lia].
Qed.

Lemma load_store_eq a i x :
  0 <= i < Z.of_nat (length a) -> load (<[Z.to_nat i := x]> a) i = Ok x.
Proof.
  intros Hi. unfold load.
  destruct (Z.ltb_spec i 0); [lia|].
  rewrite list_lookup_insert_eq; [done|lia].
Qed.

Lemma load_store_ne a i j x :
  0 <= i -> 0 <= j -> i <> j -> load (<[Z.to_nat i := x]> a) j = load a j.
Proof.
  intros Hi Hj Hne. unfold load.
  rewrite list_lookup_insert_ne; [done|lia].
Qed.
End Arrays.

(** Counted loops: an invariant indexed by the next index to run. *)
Lemma for_each_seqZ_inv {S : Type} (P : Z -> S -> Prop)
    (body : Z -> S -> result S) (n : nat) :
  forall lo s,
    P lo s ->
    (forall i t, lo <= i < lo + Z.of_nat n -> P i t ->
       exists t', body i t = Ok t' /\ P (i + 1) t') ->
    exists s', for_each body (seqZ lo (Z.of_nat n)) s = Ok s'
               /\ P (lo + Z.of_nat n) s'.
Proof.
  induction n as [|n IH]; intros lo s H0 Hstep.
  - exists s. replace (lo + Z.of_nat 0) with lo by lia. by split.
  - rewrite Nat2Z.inj_succ, seqZ_cons by lia.
    destruct (Hstep lo s) as (t & Hb & Ht); [lia|done|].
    cbn [for_each]. rewrite Hb. cbn [bind].
    replace (Z.pred (Z.succ (Z.of_nat n))) with (Z.of_nat n) by lia.
    destruct (IH (Z.succ lo) t) as (s' & Hs' & HP).
    + by replace (Z.succ lo) with (lo + 1) by lia.
    + intros i u Hi Hu. apply Hstep; [lia|done].
    + exists s'. split; [done|].
      by replace (lo + Z.succ (Z.of_nat n)) with (Z.succ lo + Z.of_nat n) by lia.
Qed.

Lemma for_range_inv {S : Type} (P : Z -> S -> Prop)
    (body : Z -> S -> result S) (lo hi : Z) (s : S) :
  lo <= hi ->
  P lo s ->
  (forall i t, lo <= i < hi -> P i t ->
     exists t', body i t = Ok t' /\ P (i + 1) t') ->
  exists s', for_range lo hi body s = Ok s' /\ P hi s'.
Proof.
  intros Hle H0 Hstep. unfold for_range.
  destruct (for_each_seqZ_inv P body (Z.to_nat (hi - lo)) lo s) as (s' & E & HP).
  - done.
  - intros i t Hi. apply Hstep. lia.
  - rewrite Z2Nat.id in * by lia. exists s'. split; [done|].
    by replace hi with (lo + (hi - lo)) by lia.
Qed.

(** ** The scan loop *)

Lemma next_slot_real i : real_slot i -> real_slot (next_slot i).
Proof.
  unfold real_slot, next_slot, uint8, MAX_NUMBER_OF_PROCESSES. intros Hi.
  destruct (Z.eqb_spec i (8 - 1)); [lia|].
  rewrite Z.mod_small; lia.
Qed.

Lemma probe_seq_real n : forall i j,
  real_slot i -> In j (probe_seq n i) -> real_slot j.
Proof.
  induction n as [|n IH]; intros i j Hi; cbn [probe_seq In]; [tauto|].
  intros [<-|Hin]; [done|]. eapply IH; [|done]. by apply next_slot_real.
Qed.

Lemma scan_loop_unfold fuel processes i counter :
  scan_loop (S fuel) processes i counter =
  let* p := load processes i in
  if is_READY p then Ok (Some i)
  else if uint8 (counter + 1) <? 6
       then scan_loop fuel processes (next_slot i) (uint8 (counter + 1))
       else Ok None.
Proof. reflexivity. Qed.

Lemma slot_ready_load processes i :
  table_wf processes -> in_range i ->
  exists p, load processes i = Ok p /\ is_READY p = slot_ready processes i.
Proof.
  unfold table_wf, in_range. intros Hwf Hi.
  destruct (load_in_bounds processes i) as [p Hp]; [lia|].
  exists p. split; [done|]. unfold slot_ready. by rewrite Hp.
Qed.

(** Entered with [counter = 6 - n], the loop probes [n] slots and returns
    the first READY one. *)
Lemma scan_loop_counted processes (n : nat) :
  table_wf processes ->
  forall fuel i,
    (1 <= n <= 6)%nat -> (n <= fuel)%nat -> real_slot i ->
    scan_loop fuel processes i (6 - Z.of_nat n)
    = Ok (find (slot_ready processes) (probe_seq n i)).
Proof.
  intros Hwf. induction n as [|n IH]; intros fuel i Hn Hfuel Hi; [lia|].
  destruct fuel as [|fuel]; [lia|]. rewrite scan_loop_unfold.
  destruct (slot_ready_load processes i Hwf) as (p & Hp & Hr).
  { unfold real_slot, in_range in *. lia. }
  rewrite Hp. cbn [bind probe_seq find]. rewrite <- Hr.
  destruct (is_READY p); [done|].
  replace (uint8 (6 - Z.of_nat (S n) + 1)) with (6 - Z.of_nat n)
    by (unfold uint8; rewrite Z.mod_small; lia).
  destruct (Z.ltb_spec (6 - Z.of_nat n) 6) as [Hlt|Hge].
  - apply IH; [lia|lia|]. by apply next_slot_real.
  - assert (n = 0%nat) as -> by lia. done.
Qed.

(** The same for an arbitrary 8-bit entry value of [counter]. *)
Lemma scan_loop_spec processes fuel i c :
  table_wf processes -> real_slot i -> 0 <= c < 256 ->
  (scan_probes c <= fuel)%nat ->
  scan_loop fuel processes i c
  = Ok (find (slot_ready processes) (probe_seq (scan_probes c) i)).
Proof.
  intros Hwf Hi Hc. unfold scan_probes.
  destruct (Z.ltb_spec c 6) as [Hlt|Hge].
  - intros Hfuel.
    replace c with (6 - Z.of_nat (Z.to_nat (6 - c))) at 1 by lia.
    apply scan_loop_counted; [done|lia|done|done].
  - destruct (slot_ready_load processes i Hwf) as (p & Hp & Hr).
    { unfold real_slot, in_range in *. lia. }
    destruct (Z.eqb_spec c 255) as [->|Hne]; intros Hfuel.
    + destruct fuel as [|fuel]; [lia|]. rewrite scan_loop_unfold, Hp.
      cbn [bind probe_seq find]. rewrite <- Hr.
      destruct (is_READY p); [done|].
      change (uint8 (255 + 1)) with (6 - Z.of_nat 6).
      change (6 - Z.of_nat 6 <? 6) with true. cbn match.
      apply scan_loop_counted; [done|lia|lia|]. by apply next_slot_real.
    + destruct fuel as [|fuel]; [lia|]. rewrite scan_loop_unfold, Hp.
      cbn [bind probe_seq find]. rewrite <- Hr.
      destruct (is_READY p); [done|].
      replace (uint8 (c + 1)) with (c + 1)
        by (unfold uint8; rewrite Z.mod_small; lia).
      destruct (Z.ltb_spec (c + 1) 6); [lia|done].
Qed.

Lemma next_slot_in_range current : in_range current -> real_slot (next_slot current).
Proof.
  unfold in_range, real_slot, next_slot, uint8, MAX_NUMBER_OF_PROCESSES.
  intros Hc. destruct (Z.eqb_spec current (8 - 1)); [lia|].
  rewrite Z.mod_small; lia.
Qed.

Lemma in_range_cases current :
  in_range current ->
  current = 0 \/ current = 1 \/ current = 2 \/ current = 3 \/
  current = 4 \/ current = 5 \/ current = 6 \/ current = 7.
Proof. unfold in_range, MAX_NUMBER_OF_PROCESSES. lia. Qed.

Lemma real_slot_cases k :
  real_slot k ->
  k = 1 \/ k = 2 \/ k = 3 \/ k = 4 \/ k = 5 \/ k = 6 \/ k = 7.
Proof. unfold real_slot, MAX_NUMBER_OF_PROCESSES. lia. Qed.

(** The window holds every real slot but [current]; called from slot 0 it
    stops one short and misses the last slot. *)
Lemma scan_window_spec current k :
  in_range current -> real_slot k ->
  In k (scan_window current) <-> (k <> current /\ (current = 0 -> k <> 7)).
Proof.
  intros Hc Hk.
  apply in_range_cases in Hc. apply real_slot_cases in Hk.
  repeat (destruct Hc as [->|Hc] || destruct Hk as [->|Hk]); subst;
    vm_compute; intuition congruence.
Qed.

Lemma first_ready_found processes probed k :
  In k probed -> slot_ready processes k = true ->
  In (first_ready processes probed) probed
  /\ slot_ready processes (first_ready processes probed) = true.
Proof.
  intros Hin Hk. unfold first_ready.
  destruct (find (slot_ready processes) probed) as [r|] eqn:E.
  - apply find_some in E. tauto.
  - eapply find_none in E; [|exact Hin]. congruence.
Qed.

Lemma first_ready_none processes probed :
  (forall k, In k probed -> slot_ready processes k = false) ->
  first_ready processes probed = 0.
Proof.
  intros Hnone. unfold first_ready.
  destruct (find (slot_ready processes) probed) as [r|] eqn:E; [|done].
  apply find_some in E. destruct E as [Hin Hr].
  rewrite Hnone in Hr by done. discriminate.
Qed.

Lemma first_ready_cases processes probed :
  (first_ready processes probed = 0
   /\ find (slot_ready processes) probed = None)
  \/ (In (first_ready processes probed) probed
      /\ slot_ready processes (first_ready processes probed) = true).
Proof.
  unfold first_ready.
  destruct (find (slot_ready processes) probed) as [r|] eqn:E; [right|by left].
  apply find_some in E. tauto.
Qed.

(** ** Even *)

Lemma Even_spec fuel processes current :
  table_wf processes -> in_range current -> (6 <= fuel)%nat ->
  os_Scheduler_Even fuel processes current
  = Ok (first_ready processes (scan_window current)).
Proof.
  intros Hwf Hc Hfuel. unfold os_Scheduler_Even.
  change (if current =? MAX_NUMBER_OF_PROCESSES - 1 then 1
          else uint8 (current + 1)) with (next_slot current).
  rewrite (scan_loop_spec processes fuel (next_slot current) 0);
    [|done|by apply next_slot_in_range|lia|done].
  cbn [bind]. unfold first_ready, scan_window.
  change (scan_probes 0) with 6%nat.
  by destruct (find _ _).
Qed.

Lemma scan_window_real current k :
  in_range current -> In k (scan_window current) -> real_slot k.
Proof.
  intros Hc. apply probe_seq_real. by apply next_slot_in_range.
Qed.

Lemma first_ready_window_range processes current :
  in_range current ->
  in_range (first_ready processes (scan_window current)).
Proof.
  intros Hc.
  destruct (first_ready_cases processes (scan_window current))
    as [[-> _]|[Hin _]].
  - unfold in_range, MAX_NUMBER_OF_PROCESSES. lia.
  - apply scan_window_real in Hin; [|done].
    unfold real_slot, in_range in *. lia.
Qed.

(** ** RoundRobin *)

Lemma RoundRobin_keep fuel si processes current :
  0 < Zeitschiebe si ->
  os_Scheduler_RoundRobin fuel si processes current
  = Ok (current, set_Zeitschiebe (uint8 (Zeitschiebe si - 1)) si).
Proof.
  intros Hz. unfold os_Scheduler_RoundRobin.
  by destruct (Z.ltb_spec 0 (Zeitschiebe si)); [|lia].
Qed.

Lemma RoundRobin_scan fuel si processes current :
  table_wf processes -> in_range current -> (6 <= fuel)%nat ->
  Zeitschiebe si <= 0 ->
  os_Scheduler_RoundRobin fuel si processes current
  = match find (slot_ready processes) (scan_window current) with
    | Some i => Ok (i, set_Zeitschiebe (prio_of processes i) si)
    | None => Ok (0, si)
    end.
Proof.
  intros Hwf Hc Hfuel Hz. unfold os_Scheduler_RoundRobin.
  destruct (Z.ltb_spec 0 (Zeitschiebe si)); [lia|].
  change (if current =? MAX_NUMBER_OF_PROCESSES - 1 then 1
          else uint8 (current + 1)) with (next_slot current).
  rewrite (scan_loop_spec processes fuel (next_slot current) 0);
    [|done|by apply next_slot_in_range|lia|done].
  cbn [bind]. change (scan_probes 0) with 6%nat. fold (scan_window current).
  destruct (find _ _) as [i|] eqn:E; [|done].
  apply find_some in E. destruct E as [Hin _].
  apply scan_window_real in Hin; [|done].
  destruct (load_in_bounds processes i) as [p Hp].
  { unfold real_slot, table_wf in *. lia. }
  unfold prio_of. by rewrite Hp.
Qed.

(** ** RunToCompletion *)

Lemma RunToCompletion_spec fuel counter0 processes current :
  table_wf processes -> in_range current -> 0 <= counter0 < 256 ->
  (7 <= fuel)%nat ->
  os_Scheduler_RunToCompletion fuel counter0 processes current
  = Ok (if slot_running processes current then current
        else first_ready processes (probe_seq (scan_probes counter0) 1)).
Proof.
  intros Hwf Hc Hc0 Hfuel. unfold os_Scheduler_RunToCompletion.
  destruct (load_in_bounds processes current) as [pc Hpc].
  { unfold in_range, table_wf in *. lia. }
  unfold slot_running. rewrite Hpc. cbn [bind].
  destruct (is_RUNNING pc); [done|].
  rewrite (scan_loop_spec processes fuel 1 counter0); [|done| |done|].
  - cbn [bind]. unfold first_ready. by destruct (find _ _).
  - unfold real_slot, MAX_NUMBER_OF_PROCESSES. lia.
  - unfold scan_probes.
    destruct (Z.ltb_spec counter0 6); [lia|].
    destruct (Z.eqb_spec counter0 255); lia.
Qed.

Lemma probe_seq_from_1 (n : nat) k :
  (n <= 7)%nat -> In k (probe_seq n 1) <-> 1 <= k <= Z.of_nat n.
Proof.
  intros Hn.
  do 8 (destruct n as [|n];
        [match goal with
         | |- context [probe_seq ?m ?i] =>
             let l := eval vm_compute in (probe_seq m i) in
             change (probe_seq m i) with l
         end; cbn [In]; lia|]).
  lia.
Qed.

Lemma scan_probes_bounds c : (1 <= scan_probes c <= 7)%nat \/ c < 0.
Proof.
  unfold scan_probes. destruct (Z.ltb_spec c 6); [lia|].
  destruct (Z.eqb_spec c 255); lia.
Qed.

(** ** InactiveAging, selection phase *)

Lemma IA_select_branch_spec processes a i Max :
  table_wf processes -> Z.of_nat (length a) = MAX_NUMBER_OF_PROCESSES ->
  in_range i -> in_range Max ->
  IA_select_branch processes a i Max
  = Ok (if slot_ready processes i && (age_of a Max <? age_of a i)
        then Branch_older
        else if slot_ready processes i && (age_of a i =? age_of a Max)
                && (prio_of processes Max <? prio_of processes i)
        then Branch_higher_priority
        else Branch_keep).
Proof.
  unfold table_wf, in_range. intros Hwf Ha Hi HM.
  destruct (load_in_bounds processes i) as [p Hp]; [lia|].
  destruct (load_in_bounds processes Max) as [pm Hpm]; [lia|].
  destruct (load_in_bounds a i) as [ai Hai]; [lia|].
  destruct (load_in_bounds a Max) as [am Ham]; [lia|].
  unfold IA_select_branch, IA_cond1, IA_cond2, IA_cond3,
    slot_ready, age_of, prio_of.
  rewrite Hp, Hpm, Hai, Ham. cbn [bind].
  destruct (is_READY p); cbn [bind andb]; [|done].
  destruct (am <? ai); cbn [bind]; [done|].
  destruct (ai =? am); cbn [bind andb]; [|done].
  destruct (priority pm <? priority p); cbn [bind]; done.
Qed.

Lemma IA_select_body_spec processes a i Max :
  table_wf processes -> Z.of_nat (length a) = MAX_NUMBER_OF_PROCESSES ->
  in_range i -> in_range Max ->
  IA_select_body processes a i Max
  = Ok (if slot_ready processes i
           && ((age_of a Max <? age_of a i)
               || ((age_of a i =? age_of a Max)
                   && (prio_of processes Max <? prio_of processes i)))
        then i else Max).
Proof.
  intros Hwf Ha Hi HM. unfold IA_select_body.
  rewrite IA_select_branch_spec by done. cbn [bind].
  destruct (slot_ready processes i); cbn [andb]; [|done].
  destruct (age_of a Max <? age_of a i); cbn [orb]; [done|].
  by destruct ((age_of a i =? age_of a Max)
               && (prio_of processes Max <? prio_of processes i)).
Qed.

Lemma IA_scan_inv_step processes a i Max :
  table_wf processes -> Z.of_nat (length a) = MAX_NUMBER_OF_PROCESSES ->
  1 <= i < 8 -> IA_scan_inv processes a i Max ->
  exists Max', IA_select_body processes a i Max = Ok Max'
               /\ IA_scan_inv processes a (i + 1) Max'.
Proof.
  intros Hwf Ha Hi (HM & Hnz & Hall).
  rewrite IA_select_body_spec; [|done|done| |];
    [|unfold in_range, MAX_NUMBER_OF_PROCESSES; lia..].
  eexists. split; [reflexivity|].
  destruct (slot_ready processes i) eqn:Hr; cbn [andb].
  - destruct (Z.ltb_spec (age_of a Max) (age_of a i)) as [Hlt|Hge]; cbn [orb].
    + (* strictly older *)
      unfold IA_scan_inv, beats_or_ties, beats in *.
      split; [lia|]. split.
      * intros _. split; [done|].
        destruct (Z.eq_dec Max 0) as [->|Hne]; [lia|].
        destruct (Hnz Hne) as [_ H0]. lia.
      * intros j Hj Hjr.
        destruct (Z.eq_dec j i) as [->|Hji]; [lia|].
        destruct (Hall j ltac:(lia) Hjr) as [Hle _]. lia.
    + destruct (Z.eqb_spec (age_of a i) (age_of a Max)) as [Heq|Hneq];
        cbn [andb].
      * destruct (Z.ltb_spec (prio_of processes Max) (prio_of processes i))
          as [Hp|Hp].
        -- (* as old, higher priority *)
           unfold IA_scan_inv, beats_or_ties, beats in *.
           split; [lia|]. split.
           ++ intros _. split; [done|].
              destruct (Z.eq_dec Max 0) as [->|Hne]; [lia|].
              destruct (Hnz Hne) as [_ H0]. lia.
           ++ intros j Hj Hjr.
              destruct (Z.eq_dec j i) as [->|Hji]; [lia|].
              destruct (Hall j ltac:(lia) Hjr) as [Hle _]. lia.
        -- (* ties or loses on priority: candidate kept *)
           unfold IA_scan_inv, beats_or_ties, beats in *.
           split; [lia|]. split; [done|].
           intros j Hj Hjr.
           destruct (Z.eq_dec j i) as [->|Hji]; [lia|].
           apply Hall; [lia|done].
      * (* younger: candidate kept *)
        unfold IA_scan_inv, beats_or_ties, beats in *.
        split; [lia|]. split; [done|].
        intros j Hj Hjr.
        destruct (Z.eq_dec j i) as [->|Hji]; [lia|].
        apply Hall; [lia|done].
  - unfold IA_scan_inv in *. split; [lia|]. split; [done|].
    intros j Hj Hjr.
    destruct (Z.eq_dec j i) as [->|Hji]; [congruence|].
    apply Hall; [lia|done].
Qed.

Lemma IA_select_scan processes a :
  table_wf processes -> Z.of_nat (length a) = MAX_NUMBER_OF_PROCESSES ->
  exists Max, for_range 1 8 (IA_select_body processes a) 0 = Ok Max
              /\ IA_scan_inv processes a 8 Max.
Proof.
  intros Hwf Ha.
  apply (for_range_inv (IA_scan_inv processes a)); [lia| |].
  - unfold IA_scan_inv. split; [lia|]. split; [done|]. intros j Hj. lia.
  - intros i t Hi Hinv. by apply IA_scan_inv_step.
Qed.

Lemma reseeded_length si processes current :
  length (reseeded si processes current) = length (age si).
Proof. apply length_insert. Qed.

Lemma InactiveAging_select si processes current :
  table_wf processes -> info_wf si -> in_range current ->
  Zeitschiebe si <= 0 ->
  exists Max,
    os_Scheduler_InactiveAging si processes current
    = Ok (Max, set_age (reseeded si processes current) si)
    /\ IA_scan_inv processes (reseeded si processes current) 8 Max.
Proof.
  unfold table_wf, info_wf, in_range. intros Hwf Hsi Hc Hz.
  unfold os_Scheduler_InactiveAging.
  destruct (Z.ltb_spec 0 (Zeitschiebe si)); [lia|].
  destruct (load_in_bounds processes current) as [pc Hpc]; [lia|].
  rewrite Hpc. cbn [bind]. rewrite store_in_bounds by lia. cbn [bind].
  replace (priority pc) with (prio_of processes current)
    by (unfold prio_of; by rewrite Hpc).
  fold (reseeded si processes current).
  destruct (IA_select_scan processes (reseeded si processes current))
    as (Max & E & Hinv); [done|by rewrite reseeded_length|].
  rewrite E. cbn [bind]. eauto.
Qed.

(** A selected real slot comes first in the docstring's order among the
    READY real slots. *)
Lemma IA_scan_inv_best processes a Max j :
  IA_scan_inv processes a 8 Max -> Max <> 0 ->
  real_slot j -> slot_ready processes j = true -> j <> Max ->
  precedes processes a Max j.
Proof.
  unfold real_slot, MAX_NUMBER_OF_PROCESSES.
  intros (HM & Hnz & Hall) Hne Hj Hjr Hjm.
  destruct (Hall j Hj Hjr) as [Hle Hlt].
  unfold precedes, beats_or_ties, beats in *.
  destruct (Z.lt_ge_cases j Max) as [Hjlt|Hjge].
  - specialize (Hlt Hjlt). lia.
  - lia.
Qed.

(** A real slot is selected exactly when some READY real slot beats the
    record of slot 0. *)
Lemma IA_scan_inv_nonzero processes a Max k :
  IA_scan_inv processes a 8 Max ->
  real_slot k -> slot_ready processes k = true -> beats processes a 0 k ->
  Max <> 0.
Proof.
  unfold real_slot, MAX_NUMBER_OF_PROCESSES.
  intros (HM & Hnz & Hall) Hk Hkr Hb ->.
  destruct (Hall k Hk Hkr) as [Hle _].
  unfold beats_or_ties, beats in *. lia.
Qed.

(** What does hold of slot 0: its state is never read, and its record can
    only replace the chosen real slot by slot 0, not change which real slot
    is chosen. *)
Lemma IA_scan_inv_transfer processes1 processes2 a k Max :
  (forall i, prio_of processes1 i = prio_of processes2 i) ->
  (forall i, real_slot i ->
     slot_ready processes1 i = slot_ready processes2 i) ->
  k <= 8 ->
  IA_scan_inv processes1 a k Max -> IA_scan_inv processes2 a k Max.
Proof.
  intros Hprio Hready Hk (HM & Hnz & Hall).
  unfold IA_scan_inv, beats_or_ties, beats in *.
  split; [done|]. split.
  - intros Hne. destruct (Hnz Hne) as [Hr Hb].
    rewrite <- Hready by (unfold real_slot, MAX_NUMBER_OF_PROCESSES; lia).
    rewrite <- !Hprio. by split.
  - intros j Hj Hjr.
    rewrite <- Hready in Hjr
      by (unfold real_slot, MAX_NUMBER_OF_PROCESSES; lia).
    rewrite <- !Hprio. by apply Hall.
Qed.

Lemma IA_scan_inv_unique processes a Max1 Max2 :
  IA_scan_inv processes a 8 Max1 -> IA_scan_inv processes a 8 Max2 ->
  Max1 = Max2.
Proof.
  intros (HM1 & Hnz1 & Hall1) (HM2 & Hnz2 & Hall2).
  unfold beats_or_ties, beats in *.
  destruct (Z.lt_trichotomy Max1 Max2) as [Hlt|[Heq|Hgt]]; [|done|].
  - destruct (Hnz2 ltac:(lia)) as [Hr2 Hb2].
    destruct (Hall1 Max2 ltac:(lia) Hr2) as [Hle _].
    destruct (Z.eq_dec Max1 0) as [->|Hne]; [lia|].
    destruct (Hnz1 Hne) as [Hr1 _].
    destruct (Hall2 Max1 ltac:(lia) Hr1) as [_ Hstrict].
    specialize (Hstrict Hlt). lia.
  - destruct (Hnz1 ltac:(lia)) as [Hr1 Hb1].
    destruct (Hall2 Max1 ltac:(lia) Hr1) as [Hle _].
    destruct (Z.eq_dec Max2 0) as [->|Hne]; [lia|].
    destruct (Hnz2 Hne) as [Hr2 _].
    destruct (Hall1 Max2 ltac:(lia) Hr2) as [_ Hstrict].
    specialize (Hstrict Hgt). lia.
Qed.

Lemma InactiveAging_slot0_state_unread si processes1 processes2 current :
  table_wf processes1 -> table_wf processes2 -> info_wf si ->
  in_range current -> Zeitschiebe si <= 0 ->
  (forall i, prio_of processes1 i = prio_of processes2 i) ->
  (forall i, real_slot i ->
     slot_ready processes1 i = slot_ready processes2 i) ->
  os_Scheduler_InactiveAging si processes1 current
  = os_Scheduler_InactiveAging si processes2 current.
Proof.
  intros Hwf1 Hwf2 Hsi Hc Hz Hprio Hready.
  destruct (InactiveAging_select si processes1 current)
    as (M1 & E1 & Hinv1); [done..|].
  destruct (InactiveAging_select si processes2 current)
    as (M2 & E2 & Hinv2); [done..|].
  rewrite E1, E2.
  assert (reseeded si processes1 current = reseeded si processes2 current)
    as Hre by (unfold reseeded; by rewrite Hprio).
  rewrite Hre in *.
  apply (IA_scan_inv_transfer processes1 processes2) in Hinv1;
    [|done|done|lia].
  by rewrite (IA_scan_inv_unique _ _ _ _ Hinv1 Hinv2).
Qed.

Lemma age_of_reseeded si processes current x :
  info_wf si -> in_range current -> in_range x ->
  age_of (reseeded si processes current) x
  = if decide (x = current) then prio_of processes current
    else age_of (age si) x.
Proof.
  unfold info_wf, in_range, age_of, reseeded. intros Hsi Hc Hx.
  destruct (decide (x = current)) as [->|Hne].
  - rewrite load_store_eq; [done|lia].
  - rewrite load_store_ne; [done|lia..].
Qed.

Lemma InactiveAging_real_choice_ignores_slot0
    si processes1 processes2 current r1 r2 si1 si2 :
  table_wf processes1 -> table_wf processes2 -> info_wf si ->
  in_range current -> Zeitschiebe si <= 0 ->
  (forall i, real_slot i -> prio_of processes1 i = prio_of processes2 i) ->
  (forall i, real_slot i ->
     slot_ready processes1 i = slot_ready processes2 i) ->
  os_Scheduler_InactiveAging si processes1 current = Ok (r1, si1) ->
  os_Scheduler_InactiveAging si processes2 current = Ok (r2, si2) ->
  r1 <> 0 -> r2 <> 0 -> r1 = r2.
Proof.
  intros Hwf1 Hwf2 Hsi Hc Hz Hprio Hready E1 E2 Hr1 Hr2.
  destruct (InactiveAging_select si processes1 current)
    as (M1 & E1' & Hinv1); [done..|].
  destruct (InactiveAging_select si processes2 current)
    as (M2 & E2' & Hinv2); [done..|].
  rewrite E1' in E1. rewrite E2' in E2.
  injection E1 as -> _. injection E2 as -> _.
  destruct (Z.eq_dec r1 r2) as [|Hne]; [done|exfalso].
  pose proof Hinv1 as (HM1 & Hnz1 & _). pose proof Hinv2 as (HM2 & Hnz2 & _).
  assert (real_slot r1) as Hreal1
    by (unfold real_slot, MAX_NUMBER_OF_PROCESSES; lia).
  assert (real_slot r2) as Hreal2
    by (unfold real_slot, MAX_NUMBER_OF_PROCESSES; lia).
  destruct (Hnz1 Hr1) as [Hrdy1 _]. destruct (Hnz2 Hr2) as [Hrdy2 _].
  assert (precedes processes1 (reseeded si processes1 current) r1 r2) as P12.
  { eapply IA_scan_inv_best; [done|done|done| |congruence].
    by rewrite Hready. }
  assert (precedes processes2 (reseeded si processes2 current) r2 r1) as P21.
  { eapply IA_scan_inv_best; [done|done|done| |congruence].
    by rewrite <- Hready. }
  assert (forall x, real_slot x ->
            age_of (reseeded si processes1 current) x
            = age_of (reseeded si processes2 current) x) as Hage.
  { intros x Hx. rewrite !age_of_reseeded;
      try done; try (unfold real_slot, in_range in *; lia).
    destruct (decide (x = current)) as [->|]; [by apply Hprio|done]. }
  unfold precedes in *.
  rewrite (Hage r1 Hreal1), (Hage r2 Hreal2) in P12.
  rewrite (Hprio r1 Hreal1), (Hprio r2 Hreal2) in P12.
  lia.
Qed.

(** ** InactiveAging, aging phase *)

Lemma InactiveAging_keep si processes current :
  table_wf processes -> info_wf si -> 0 < Zeitschiebe si ->
  exists a,
    os_Scheduler_InactiveAging si processes current
    = Ok (current,
          set_age a (set_Zeitschiebe (uint8 (Zeitschiebe si - 1)) si))
    /\ length a = length (age si).
Proof.
  unfold table_wf, info_wf. intros Hwf Hsi Hz.
  unfold os_Scheduler_InactiveAging.
  destruct (Z.ltb_spec 0 (Zeitschiebe si)); [|lia].
  destruct (for_range_inv (fun _ a => length a = length (age si))
              (IA_aging_body processes current) 1 8 (age si))
    as (a & E & Hlen); [lia|done| |].
  - intros i t Hi Ht. unfold IA_aging_body.
    destruct (negb (current =? i)); [|eauto].
    destruct (load_in_bounds processes i) as [p Hp];
      [unfold MAX_NUMBER_OF_PROCESSES in *; lia|].
    destruct (load_in_bounds t i) as [ti Hti];
      [unfold MAX_NUMBER_OF_PROCESSES in *; lia|].
    rewrite Hp, Hti. cbn [bind].
    rewrite store_in_bounds by (unfold MAX_NUMBER_OF_PROCESSES in *; lia).
    eexists. split; [reflexivity|]. by rewrite length_insert.
  - cbn [age set_Zeitschiebe] in *. rewrite E. cbn [bind]. eauto.
Qed.

(** ** Random *)

Lemma ready_upto_le processes j :
  ready_upto processes j <= os_getNumberOfReadyProcs processes.
Proof.
  unfold ready_upto, os_getNumberOfReadyProcs.
  rewrite <- (take_drop (Z.to_nat (j - 1)) (drop 1 processes)) at 2.
  rewrite filter_app, length_app. lia.
Qed.

Lemma ready_upto_all processes :
  table_wf processes ->
  ready_upto processes MAX_NUMBER_OF_PROCESSES
  = os_getNumberOfReadyProcs processes.
Proof.
  unfold table_wf, ready_upto, os_getNumberOfReadyProcs,
    MAX_NUMBER_OF_PROCESSES.
  intros Hwf. rewrite take_ge; [done|]. rewrite length_drop. lia.
Qed.

Lemma ready_upto_step processes j p :
  1 <= j -> load processes j = Ok p ->
  ready_upto processes (j + 1)
  = ready_upto processes j + (if is_READY p then 1 else 0).
Proof.
  intros Hj Hp. apply load_Ok_inv in Hp as [Hr Hp]. unfold ready_upto.
  replace (Z.to_nat (j + 1 - 1)) with (S (Z.to_nat (j - 1))) by lia.
  rewrite (take_S_r _ _ p).
  - rewrite filter_app, length_app.
    destruct (is_READY p) eqn:E.
    + rewrite filter_cons_True by done. cbn [filter list_filter length]. lia.
    + rewrite filter_cons_False by congruence. cbn [filter list_filter length]. lia.
  - rewrite lookup_drop. by replace (1 + Z.to_nat (j - 1))%nat with (Z.to_nat j) by lia.
Qed.

Lemma ready_count_bound processes :
  table_wf processes -> 0 <= os_getNumberOfReadyProcs processes <= 7.
Proof.
  unfold table_wf, os_getNumberOfReadyProcs, MAX_NUMBER_OF_PROCESSES.
  intros Hwf.
  pose proof (length_filter (fun p => is_READY p = true) (drop 1 processes)) as H.
  rewrite length_drop in H. lia.
Qed.

Lemma Random_spec rnd processes current :
  table_wf processes -> 0 <= rnd ->
  exists r, os_Scheduler_Random rnd processes current = Ok r
            /\ (r = 0 \/ (real_slot r /\ slot_ready processes r = true)).
Proof.
  intros Hwf Hrnd. pose proof (ready_count_bound processes Hwf) as Hn.
  unfold os_Scheduler_Random.
  replace (uint8 (os_getNumberOfReadyProcs processes))
    with (os_getNumberOfReadyProcs processes)
    by (unfold uint8; rewrite Z.mod_small; lia).
  set (num := os_getNumberOfReadyProcs processes) in *.
  destruct (for_range_inv
              (fun j s => Random_inv processes j s
                          /\ forall m, 0 <= m < snd s ->
                               exists v, load (fst s) m = Ok (Some v)
                                         /\ slot_ready processes v = true)
              (fun j '(procIndex, i) =>
                 let* p := load processes j in
                 if is_READY p then
                   let* procIndex' := store procIndex i (Some j) in
                   Ok (procIndex', uint8 (i + 1))
                 else Ok (procIndex, i))
              1 MAX_NUMBER_OF_PROCESSES
              (replicate (Z.to_nat num) None, 0))
    as ([procIndex i] & E & (Hlen & Hi & Hfill) & Hrdy).
  - unfold MAX_NUMBER_OF_PROCESSES. lia.
  - split; [|cbn [snd]; intros; lia]. unfold Random_inv. cbn [fst snd].
    rewrite length_replicate. split; [fold num; lia|].
    split; [|intros; lia]. unfold ready_upto. by cbn.
  - intros j [pi ix] Hj [(Hlen & Hix & Hfill) Hrdy]. cbn [fst snd] in *.
    destruct (load_in_bounds processes j) as [p Hp];
      [unfold table_wf in *; lia|].
    rewrite Hp. cbn [bind].
    pose proof (ready_upto_step processes j p ltac:(lia) Hp) as Hstep.
    pose proof (ready_upto_le processes (j + 1)) as Hle.
    pose proof (ready_upto_le processes j) as Hle'.
    assert (0 <= ix) as Hix0 by (subst ix; unfold ready_upto; lia).
    destruct (is_READY p) eqn:Hready.
    + rewrite store_in_bounds by (fold num in Hle; lia). cbn [bind].
      eexists. split; [reflexivity|].
      assert (uint8 (ix + 1) = ix + 1) as ->
        by (unfold uint8; rewrite Z.mod_small; fold num in Hle; lia).
      assert (forall m, 0 <= m < ix + 1 ->
                m = ix /\ load (<[Z.to_nat ix := Some j]> pi) m = Ok (Some j)
                \/ 0 <= m < ix
                   /\ load (<[Z.to_nat ix := Some j]> pi) m = load pi m) as Hrd.
      { intros m Hm. destruct (Z.eq_dec m ix) as [->|Hne].
        - left. split; [done|]. apply load_store_eq. fold num in Hle. lia.
        - right. split; [lia|]. apply load_store_ne; lia. }
      split; [split; [|split]|]; cbn [fst snd].
      * by rewrite length_insert.
      * lia.
      * intros m Hm. destruct (Hrd m Hm) as [[_ ->]|[Hm' ->]].
        -- exists j. split; [done|lia].
        -- destruct (Hfill m Hm') as (v & Hv & Hr). exists v. split; [done|lia].
      * intros m Hm. destruct (Hrd m Hm) as [[_ ->]|[Hm' ->]].
        -- exists j. split; [done|]. unfold slot_ready. by rewrite Hp.
        -- by apply Hrdy.
    + eexists. split; [reflexivity|].
      split; [split; [|split]|]; cbn [fst snd]; [done|lia| |done].
      intros m Hm. destruct (Hfill m Hm) as (v & Hv & Hr).
      exists v. split; [done|lia].
  - cbn [fst snd] in *. rewrite E. cbn [bind].
    rewrite ready_upto_all in Hi by done. fold num in Hi, Hlen. subst i.
    destruct (Z.eqb_spec num 0) as [Hz|Hnz]; [eauto|].
    assert (0 <= Z.rem rnd num < num) as Hrem by (apply Z.rem_bound_pos; lia).
    assert (uint8 (Z.rem rnd num) = Z.rem rnd num) as ->
      by (unfold uint8; rewrite Z.mod_small; lia).
    destruct (Hfill _ Hrem) as (v & Hv & Hvr).
    destruct (Hrdy _ Hrem) as (v' & Hv' & Hvr').
    rewrite Hv in Hv'. injection Hv' as <-.
    rewrite Hv. cbn [bind]. exists v. split; [done|]. right.
    split; [|done]. unfold real_slot. lia.
Qed.

(** ** Reset operations *)

Lemma reset_ages_zero (a : list Z) :
  Z.of_nat (length a) = MAX_NUMBER_OF_PROCESSES ->
  exists a', for_range 0 MAX_NUMBER_OF_PROCESSES (fun i a => store a i 0) a
             = Ok a'
             /\ length a' = length a
             /\ Forall (fun x => x = 0) a'.
Proof.
  intros Ha.
  destruct (for_range_inv
              (fun j (t : list Z) =>
                 length t = length a
                 /\ forall m, 0 <= m < j -> load t m = Ok 0)
              (fun i t => store t i 0) 0 MAX_NUMBER_OF_PROCESSES a)
    as (a' & E & Hlen & Hz).
  - unfold MAX_NUMBER_OF_PROCESSES. lia.
  - split; [done|]. intros m Hm. lia.
  - intros i t Hi [Hlen Hz]. rewrite store_in_bounds by lia.
    eexists. split; [reflexivity|]. split; [by rewrite length_insert|].
    intros m Hm. destruct (Z.eq_dec m i) as [->|Hne].
    + apply load_store_eq. lia.
    + rewrite load_store_ne by lia. apply Hz. lia.
  - exists a'. split; [done|]. split; [done|].
    apply Forall_lookup. intros n x Hx.
    pose proof (lookup_lt_Some _ _ _ Hx) as Hn.
    specialize (Hz (Z.of_nat n) ltac:(lia)).
    apply load_Ok_inv in Hz as [_ Hz]. rewrite Nat2Z.id in Hz. congruence.
Qed.

(** ** Time slices of RoundRobin *)

(** A slice seeded with [z] keeps the running slot for [z] further calls:
    one call for every value [z, z-1, ..., 1] of the counter. *)
Lemma RoundRobin_keeps_slice n : forall fuel si processes current,
  Z.of_nat n <= Zeitschiebe si < 256 ->
  RoundRobin_ticks n fuel si processes current
  = Ok (replicate n current,
        set_Zeitschiebe (Zeitschiebe si - Z.of_nat n) si).
Proof.
  induction n as [|n IH]; intros fuel si processes current Hz.
  - cbn [RoundRobin_ticks replicate]. destruct si as [z a].
    unfold set_Zeitschiebe. cbn [Zeitschiebe age]. do 3 f_equal. lia.
  - cbn [RoundRobin_ticks]. rewrite RoundRobin_keep by lia. cbn [bind].
    assert (uint8 (Zeitschiebe si - 1) = Zeitschiebe si - 1) as ->
      by (unfold uint8; rewrite Z.mod_small; lia).
    rewrite IH by (cbn [set_Zeitschiebe Zeitschiebe]; lia).
    cbn [bind replicate]. unfold set_Zeitschiebe. cbn [Zeitschiebe age].
    do 3 f_equal. lia.
Qed.

(** ** Range and totality of the five selectors *)

Lemma Even_returns fuel processes current :
  table_wf processes -> in_range current -> (6 <= fuel)%nat ->
  exists r, os_Scheduler_Even fuel processes current = Ok r /\ in_range r.
Proof.
  intros Hwf Hc Hfuel. rewrite Even_spec by done.
  eexists. split; [reflexivity|]. by apply first_ready_window_range.
Qed.

Lemma RoundRobin_returns fuel si processes current :
  table_wf processes -> in_range current -> (6 <= fuel)%nat ->
  exists r si', os_Scheduler_RoundRobin fuel si processes current = Ok (r, si')
                /\ in_range r.
Proof.
  intros Hwf Hc Hfuel.
  destruct (Z.lt_ge_cases 0 (Zeitschiebe si)) as [Hz|Hz].
  - rewrite RoundRobin_keep by done. eauto.
  - rewrite RoundRobin_scan by (done || lia).
    pose proof (first_ready_window_range processes current Hc) as Hr.
    unfold first_ready in Hr. destruct (find _ _); eauto.
Qed.

Lemma InactiveAging_returns si processes current :
  table_wf processes -> info_wf si -> in_range current ->
  exists r si', os_Scheduler_InactiveAging si processes current = Ok (r, si')
                /\ in_range r.
Proof.
  intros Hwf Hsi Hc.
  destruct (Z.lt_ge_cases 0 (Zeitschiebe si)) as [Hz|Hz].
  - destruct (InactiveAging_keep si processes current) as (a & E & _);
      [done..|]. rewrite E. eauto.
  - destruct (InactiveAging_select si processes current)
      as (Max & E & HM & _); [done|done|done|lia|].
    rewrite E. do 2 eexists. split; [reflexivity|].
    unfold in_range, MAX_NUMBER_OF_PROCESSES. lia.
Qed.

Lemma RunToCompletion_returns fuel counter0 processes current :
  table_wf processes -> in_range current -> 0 <= counter0 < 256 ->
  (7 <= fuel)%nat ->
  exists r, os_Scheduler_RunToCompletion fuel counter0 processes current = Ok r
            /\ in_range r.
Proof.
  intros Hwf Hc Hc0 Hfuel. rewrite RunToCompletion_spec by done.
  eexists. split; [reflexivity|].
  destruct (slot_running processes current); [done|].
  destruct (first_ready_cases processes (probe_seq (scan_probes counter0) 1))
    as [[-> _]|[Hin _]].
  - unfold in_range, MAX_NUMBER_OF_PROCESSES. lia.
  - apply probe_seq_real in Hin.
    + unfold real_slot, in_range in *. lia.
    + unfold real_slot, MAX_NUMBER_OF_PROCESSES. lia.
Qed.

Lemma Random_returns rnd processes current :
  table_wf processes -> 0 <= rnd ->
  exists r, os_Scheduler_Random rnd processes current = Ok r /\ in_range r.
Proof.
  intros Hwf Hrnd.
  destruct (Random_spec rnd processes current Hwf Hrnd) as (r & E & Hr).
  exists r. split; [done|].
  unfold in_range, real_slot, MAX_NUMBER_OF_PROCESSES in *. lia.
Qed.

(** * The claims *)

(** ** C1 *)

(** C1, as stated, fails for each of the four selectors: with slot 7 READY,
    Even called from slot 0 returns 0 (its six probes end at slot 6);
    RoundRobin with ticks remaining returns [current = 0]; RunToCompletion
    returns the RUNNING [current = 0]; and the selection phase of
    InactiveAging returns 0 when the record of slot 0 is not beaten. *)
Lemma C1_zero_despite_ready_slot :
  slot_ready table_only_7 7 = true
  /\ slot_ready table_idle_running 7 = true
  /\ os_Scheduler_Even 7 table_only_7 0 = Ok 0
  /\ os_Scheduler_RoundRobin 7 (info_with 2 (replicate 8 0)) table_only_7 0
     = Ok (0, info_with 1 (replicate 8 0))
  /\ os_Scheduler_RunToCompletion 7 0 table_idle_running 0 = Ok 0
  /\ os_Scheduler_InactiveAging fresh_info table_idle_running 0
     = Ok (0, info_with 0 [2; 0; 0; 0; 0; 0; 0; 0]).
Proof. vm_compute. repeat split. Qed.

(** C1 (amended): let a real slot [k] be READY.  Even returns a nonzero slot
    when [k] is among the six slots it probes after [current] ([k] is not
    [current], and not the last slot when [current] is 0).  RoundRobin does
    so when no ticks remain and [k] is among those six slots, or when ticks
    remain and [current] is nonzero.  RunToCompletion does so when [current]
    is RUNNING and nonzero, or when [current] is not RUNNING and [k] is one
    of the slots probed from slot 1.  InactiveAging does so when ticks remain
    and [current] is nonzero, or when no ticks remain and [k], after
    [age[current]] is re-seeded, is older than slot 0 or as old and of higher
    priority. *)
Theorem selectors_nonzero_when_ready_slot_probed
    (fuel : nat) (counter0 : Z) (si : SchedulingInformation)
    (processes : list Process) (current k : ProcessID) :
  table_wf processes -> info_wf si -> in_range current ->
  0 <= counter0 < 256 -> (7 <= fuel)%nat ->
  real_slot k -> slot_ready processes k = true ->
  (k <> current /\ (current = 0 -> k <> MAX_NUMBER_OF_PROCESSES - 1) ->
   exists r, os_Scheduler_Even fuel processes current = Ok r /\ r <> 0)
  /\ ((Zeitschiebe si <= 0
       /\ k <> current /\ (current = 0 -> k <> MAX_NUMBER_OF_PROCESSES - 1))
      \/ (0 < Zeitschiebe si /\ current <> 0) ->
      exists r si',
        os_Scheduler_RoundRobin fuel si processes current = Ok (r, si')
        /\ r <> 0)
  /\ ((slot_running processes current = false
       /\ k <= Z.of_nat (scan_probes counter0))
      \/ (slot_running processes current = true /\ current <> 0) ->
      exists r,
        os_Scheduler_RunToCompletion fuel counter0 processes current = Ok r
        /\ r <> 0)
  /\ ((Zeitschiebe si <= 0
       /\ beats processes (reseeded si processes current) 0 k)
      \/ (0 < Zeitschiebe si /\ current <> 0) ->
      exists r si',
        os_Scheduler_InactiveAging si processes current = Ok (r, si')
        /\ r <> 0).
Proof.
  intros Hwf Hsi Hc Hc0 Hfuel Hk Hkr.
  assert (forall probed, In k probed ->
            (forall j, In j probed -> real_slot j) ->
            first_ready processes probed <> 0) as Hfound.
  { intros probed Hin Hreal.
    destruct (first_ready_found processes probed k Hin Hkr) as [Hr _].
    apply Hreal in Hr. unfold real_slot in Hr. lia. }
  repeat split.
  - intros Hwin. apply scan_window_spec in Hwin; [|done..].
    rewrite Even_spec by (done || lia). eexists. split; [reflexivity|].
    apply Hfound; [done|]. intros j. by apply scan_window_real.
  - intros [(Hz & Hwin)|[Hz Hne]].
    + apply scan_window_spec in Hwin; [|done..].
      rewrite RoundRobin_scan by (done || lia).
      pose proof (Hfound _ Hwin
                    (fun j => scan_window_real current j Hc)) as Hnz.
      unfold first_ready in Hnz. destruct (find _ _); [eauto|done].
    + rewrite RoundRobin_keep by done. eauto.
  - rewrite RunToCompletion_spec by done.
    intros [[-> Hprobe]|[-> Hne]]; [|eauto].
    eexists. split; [reflexivity|]. apply Hfound.
    + apply probe_seq_from_1.
      * destruct (scan_probes_bounds counter0); lia.
      * unfold real_slot in Hk. lia.
    + intros j. apply probe_seq_real.
      unfold real_slot, MAX_NUMBER_OF_PROCESSES. lia.
  - intros [[Hz Hb]|[Hz Hne]].
    + destruct (InactiveAging_select si processes current)
        as (Max & E & Hinv); [done..|].
      rewrite E. do 2 eexists. split; [reflexivity|].
      by eapply IA_scan_inv_nonzero.
    + destruct (InactiveAging_keep si processes current) as (a & E & _);
        [done..|]. rewrite E. eauto.
Qed.

Lemma selectors_nonzero_when_ready_slot_probed_witness :
  (exists r, os_Scheduler_Even 7 table_2_5 5 = Ok r /\ r <> 0)
  /\ (exists r si',
        os_Scheduler_RoundRobin 7 fresh_info table_2_5 5 = Ok (r, si')
        /\ r <> 0)
  /\ (exists r, os_Scheduler_RunToCompletion 7 0 table_2_5 5 = Ok r /\ r <> 0)
  /\ (exists r si',
        os_Scheduler_InactiveAging fresh_info table_2_5 5 = Ok (r, si')
        /\ r <> 0).
Proof.
  destruct (selectors_nonzero_when_ready_slot_probed
              7 0 fresh_info table_2_5 5 2)
    as (HE & HR & HC & HA).
  - reflexivity.
  - reflexivity.
  - unfold in_range, MAX_NUMBER_OF_PROCESSES. lia.
  - lia.
  - lia.
  - unfold real_slot, MAX_NUMBER_OF_PROCESSES. lia.
  - reflexivity.
  - split; [apply HE|split; [apply HR|split; [apply HC|apply HA]]].
    + split; [lia|]. intros; lia.
    + left. split; [simpl; lia|]. split; [lia|]. intros; lia.
    + left. split; [reflexivity|]. change (scan_probes 0) with 6%nat. lia.
    + left. split; [simpl; lia|]. right. vm_compute. split; reflexivity.
Defined.

(** ** C2 *)

(** When [k] is the only READY real slot and lies among the six probed
    slots, Even returns it. *)
Lemma Even_single_ready_probed fuel processes current k :
  table_wf processes -> in_range current -> (6 <= fuel)%nat ->
  real_slot k -> slot_ready processes k = true ->
  (forall j, real_slot j -> slot_ready processes j = true -> j = k) ->
  k <> current -> (current = 0 -> k <> MAX_NUMBER_OF_PROCESSES - 1) ->
  os_Scheduler_Even fuel processes current = Ok k.
Proof.
  intros Hwf Hc Hfuel Hk Hkr Honly Hne Hlast.
  rewrite Even_spec by done. f_equal.
  assert (In k (scan_window current)) as Hin by by apply scan_window_spec.
  destruct (first_ready_found processes _ k Hin Hkr) as [Hr Hrr].
  apply Honly; [|done]. by apply (scan_window_real current).
Qed.

(** The scan never reaches [current] itself: a real [current] that is the
    only READY slot is passed over and slot 0 is returned. *)
Lemma Even_skips_current fuel processes current :
  table_wf processes -> real_slot current -> (6 <= fuel)%nat ->
  (forall j, real_slot j -> slot_ready processes j = true -> j = current) ->
  os_Scheduler_Even fuel processes current = Ok 0.
Proof.
  intros Hwf Hc Hfuel Honly.
  assert (in_range current) as Hc' by (unfold real_slot, in_range in *; lia).
  rewrite Even_spec by done. f_equal. apply first_ready_none.
  intros j Hin. pose proof (scan_window_real current j Hc' Hin) as Hj.
  apply scan_window_spec in Hin as [Hne _]; [|done..].
  destruct (slot_ready processes j) eqn:E; [|done].
  by apply Honly in E.
Qed.

(** C2 (the code at the failing inputs): slot 7 is the only READY slot of
    [table_only_7], yet Even returns 0 and not 7 when called from slot 0,
    whose six probes are slots 1 to 6, and when called from slot 7 itself. *)
Theorem Even_single_ready_slot_missed :
  slot_ready table_only_7 7 = true
  /\ (forall j, real_slot j -> slot_ready table_only_7 j = true -> j = 7)
  /\ scan_window 0 = [1; 2; 3; 4; 5; 6]
  /\ os_Scheduler_Even 7 table_only_7 0 = Ok 0
  /\ os_Scheduler_Even 7 table_only_7 7 = Ok 0.
Proof.
  split; [reflexivity|]. split; [|by vm_compute].
  intros j Hj. apply real_slot_cases in Hj.
  repeat (destruct Hj as [->|Hj]); subst; vm_compute; congruence.
Qed.

(** ** C3 *)

(** C3 (the code at the failing input): on [table_2_5] the scan made from
    slot 5 at tick T selects slot 2 and seeds the counter with its priority
    p = 3.  The calls at T+1, T+2 and T+3 = T+p all return slot 2 without
    scanning, although a scan at that point picks slot 5; the new scan only
    happens at T+p+1. *)
Theorem RoundRobin_slice_one_tick_long :
  os_Scheduler_RoundRobin 7 fresh_info table_2_5 5
  = Ok (2, info_with 3 (replicate 8 0))
  /\ RoundRobin_ticks 3 7 (info_with 3 (replicate 8 0)) table_2_5 2
     = Ok ([2; 2; 2], info_with 0 (replicate 8 0))
  /\ os_Scheduler_RoundRobin 7 (info_with 0 (replicate 8 0)) table_2_5 2
     = Ok (5, info_with 1 (replicate 8 0))
  /\ RoundRobin_ticks 5 7 fresh_info table_2_5 5
     = Ok ([2; 2; 2; 2; 5], info_with 1 (replicate 8 0)).
Proof. by vm_compute. Qed.

(** After a scan has selected slot [i] and seeded the counter with its
    priority [p], the next [p] calls (not [p - 1]) return [i] again, and
    the counter is then 0, so that the call after those scans. *)
Lemma RoundRobin_selected_runs_p_more fuel si processes current i si' :
  table_wf processes -> in_range current -> (6 <= fuel)%nat ->
  Zeitschiebe si <= 0 -> i <> 0 ->
  os_Scheduler_RoundRobin fuel si processes current = Ok (i, si') ->
  0 <= prio_of processes i < 256 ->
  Zeitschiebe si' = prio_of processes i
  /\ RoundRobin_ticks (Z.to_nat (prio_of processes i)) fuel si' processes i
     = Ok (replicate (Z.to_nat (prio_of processes i)) i,
           set_Zeitschiebe 0 si').
Proof.
  intros Hwf Hc Hfuel Hz Hi E Hp.
  rewrite RoundRobin_scan in E by done.
  destruct (find _ _) as [i'|]; [|congruence].
  injection E as -> <-. cbn [set_Zeitschiebe Zeitschiebe].
  split; [done|]. rewrite RoundRobin_keeps_slice.
  - do 2 f_equal. unfold set_Zeitschiebe. cbn [Zeitschiebe age].
    f_equal. lia.
  - cbn [set_Zeitschiebe Zeitschiebe]. lia.
Qed.

(** ** C4 *)

(** C4, as stated, fails twice.  Slots 1 and 2 are READY with equal
    priority.  Called with [current = 1], the selection phase first
    overwrites the accumulated age 100 of slot 1 with its priority 2 and
    then selects slot 2, of age 50.  With equal ages and the record of
    slot 0 not beaten, it returns slot 0 and not the lower slot 1. *)
Lemma C4_greater_age_or_lower_slot_not_selected :
  slot_ready (table_1_2 unused_slot) 1 = true
  /\ slot_ready (table_1_2 unused_slot) 2 = true
  /\ prio_of (table_1_2 unused_slot) 1 = prio_of (table_1_2 unused_slot) 2
  /\ age_of [0; 100; 50; 0; 0; 0; 0; 0] 1 > age_of [0; 100; 50; 0; 0; 0; 0; 0] 2
  /\ os_Scheduler_InactiveAging (info_with 0 [0; 100; 50; 0; 0; 0; 0; 0])
       (table_1_2 unused_slot) 1
     = Ok (2, info_with 0 [0; 2; 50; 0; 0; 0; 0; 0])
  /\ os_Scheduler_InactiveAging fresh_info
       (table_1_2 (mkProcess OS_PS_READY 2)) 0
     = Ok (0, info_with 0 [2; 0; 0; 0; 0; 0; 0; 0]).
Proof. by vm_compute. Qed.

Lemma precedes_asym processes a x y :
  precedes processes a x y -> precedes processes a y x -> False.
Proof. unfold precedes. lia. Qed.

(** C4 (amended): in the selection phase [age[current]] is first overwritten
    with the priority of [current].  Over the ages so obtained, whenever some
    READY real slot is older than slot 0, or as old and of higher priority,
    the slot returned is a READY real slot and comes before every other
    READY real slot in the order age descending, priority descending, slot
    index ascending: the READY real slot that comes first in this order is
    the one selected.  So of two READY real slots the earlier in the order is
    selected over the later: the older of two of equal priority, the lower
    index of two of equal age and priority.  In any case a real slot that is
    returned is READY and first in the order. *)
Theorem InactiveAging_selection_order
    (si : SchedulingInformation) (processes : list Process)
    (current : ProcessID) :
  table_wf processes -> info_wf si -> in_range current ->
  Zeitschiebe si = 0 ->
  exists r,
    os_Scheduler_InactiveAging si processes current
    = Ok (r, set_age (reseeded si processes current) si)
    /\ ((exists k, real_slot k /\ slot_ready processes k = true
                   /\ beats processes (reseeded si processes current) 0 k) ->
        real_slot r /\ slot_ready processes r = true
        /\ (forall j, real_slot j -> slot_ready processes j = true ->
              j <> r ->
              precedes processes (reseeded si processes current) r j)
        /\ (forall i, real_slot i -> slot_ready processes i = true ->
              (forall j, real_slot j -> slot_ready processes j = true ->
                 j <> i ->
                 precedes processes (reseeded si processes current) i j) ->
              r = i))
    /\ (r <> 0 ->
        real_slot r /\ slot_ready processes r = true
        /\ forall j, real_slot j -> slot_ready processes j = true -> j <> r ->
             precedes processes (reseeded si processes current) r j)
    /\ (forall i j,
          real_slot i -> slot_ready processes i = true ->
          real_slot j -> slot_ready processes j = true ->
          precedes processes (reseeded si processes current) i j ->
          r <> j).
Proof.
  intros Hwf Hsi Hc Hz.
  destruct (InactiveAging_select si processes current)
    as (Max & E & Hinv); [done|done|done|lia|].
  exists Max. split; [done|].
  assert (Max <> 0 ->
          forall j, real_slot j -> slot_ready processes j = true -> j <> Max ->
            precedes processes (reseeded si processes current) Max j) as Hbest.
  { intros Hne j Hj Hjr Hjm. by eapply IA_scan_inv_best. }
  assert (Max <> 0 -> real_slot Max /\ slot_ready processes Max = true)
    as Hreal.
  { intros Hne. destruct Hinv as (HM & Hnz & _).
    split; [unfold real_slot, MAX_NUMBER_OF_PROCESSES; lia|]. by apply Hnz. }
  split; [|split].
  - intros (k & Hk & Hkr & Hb).
    assert (Max <> 0) as Hne by by eapply IA_scan_inv_nonzero.
    destruct (Hreal Hne) as [HMr HMrdy].
    split; [done|]. split; [done|]. split; [by apply Hbest|].
    intros i Hi Hir Hfirst.
    destruct (Z.eq_dec Max i) as [|Hmi]; [done|exfalso].
    eapply precedes_asym; [by apply (Hbest Hne i)|].
    apply Hfirst; [done|done|congruence].
  - intros Hne. destruct (Hreal Hne) as [HMr HMrdy].
    split; [done|]. split; [done|]. by apply Hbest.
  - intros i j Hi Hir Hj Hjr Hij Heq. subst j.
    assert (Max <> 0) as Hne by (unfold real_slot in Hj; lia).
    destruct (Z.eq_dec i Max) as [->|Him].
    + by eapply precedes_asym.
    + eapply precedes_asym; [exact Hij|]. by apply Hbest.
Qed.

(** Slots 1 and 2 are READY with equal priority and ages 100 and 50, slot 3
    is running: slot 1, the older one, is selected. *)
Lemma InactiveAging_selection_order_witness :
  os_Scheduler_InactiveAging (info_with 0 [0; 100; 50; 0; 0; 0; 0; 0])
    (table_1_2 unused_slot) 3
  = Ok (1, info_with 0 [0; 100; 50; 0; 0; 0; 0; 0]).
Proof.
  destruct (InactiveAging_selection_order
              (info_with 0 [0; 100; 50; 0; 0; 0; 0; 0])
              (table_1_2 unused_slot) 3)
    as (r & E & Hsel & _).
  - reflexivity.
  - reflexivity.
  - unfold in_range, MAX_NUMBER_OF_PROCESSES. lia.
  - reflexivity.
  - destruct Hsel as (_ & _ & _ & Hfirst).
    + exists 1. split; [unfold real_slot, MAX_NUMBER_OF_PROCESSES; lia|].
      split; [reflexivity|]. left. vm_compute. reflexivity.
    + rewrite E. rewrite (Hfirst 1).
      * reflexivity.
      * unfold real_slot, MAX_NUMBER_OF_PROCESSES. lia.
      * reflexivity.
      * intros j Hj Hjr Hne. apply real_slot_cases in Hj.
        repeat (destruct Hj as [Hj|Hj]); subst j;
          try done; try discriminate Hjr.
        left. vm_compute. reflexivity.
Defined.

(** ** C5 *)

(** C5 (the code at the failing input): the two tables differ in the
    priority of slot 0 only, slot 1 is READY in both, the scheduling state
    is the same, and the selection phase returns slot 0 for one and slot 1
    for the other. *)
Theorem InactiveAging_slot0_priority_decides :
  drop 1 (table_1 (mkProcess OS_PS_READY 2))
  = drop 1 (table_1 (mkProcess OS_PS_READY 1))
  /\ slot_ready (table_1 (mkProcess OS_PS_READY 2)) 1 = true
  /\ os_Scheduler_InactiveAging fresh_info
       (table_1 (mkProcess OS_PS_READY 2)) 3
     = Ok (0, fresh_info)
  /\ os_Scheduler_InactiveAging fresh_info
       (table_1 (mkProcess OS_PS_READY 1)) 3
     = Ok (1, fresh_info).
Proof. by vm_compute. Qed.

(** ** C6 *)

(** C6, as stated, fails: called from slot 6 with slot 7 READY, Even returns
    7 = N-1, which is not in [0, N-1). *)
Lemma C6_last_slot_returned :
  os_Scheduler_Even 7 table_only_7 6 = Ok 7
  /\ ~ (7 <= MAX_NUMBER_OF_PROCESSES - 2).
Proof. split; [reflexivity|]. unfold MAX_NUMBER_OF_PROCESSES. lia. Qed.

(** C6 (amended): every selector, on any table, any in-range current slot
    and any scheduling state, returns an index in [0, N), that is
    0 <= result <= N-1. *)
Theorem selectors_return_table_index
    (fuel : nat) (counter0 rnd : Z) (si : SchedulingInformation)
    (processes : list Process) (current : ProcessID) :
  table_wf processes -> info_wf si -> in_range current ->
  0 <= counter0 < 256 -> 0 <= rnd -> (7 <= fuel)%nat ->
  (exists r, os_Scheduler_Even fuel processes current = Ok r
             /\ 0 <= r <= MAX_NUMBER_OF_PROCESSES - 1)
  /\ (exists r, os_Scheduler_Random rnd processes current = Ok r
                /\ 0 <= r <= MAX_NUMBER_OF_PROCESSES - 1)
  /\ (exists r si',
        os_Scheduler_RoundRobin fuel si processes current = Ok (r, si')
        /\ 0 <= r <= MAX_NUMBER_OF_PROCESSES - 1)
  /\ (exists r si',
        os_Scheduler_InactiveAging si processes current = Ok (r, si')
        /\ 0 <= r <= MAX_NUMBER_OF_PROCESSES - 1)
  /\ (exists r,
        os_Scheduler_RunToCompletion fuel counter0 processes current = Ok r
        /\ 0 <= r <= MAX_NUMBER_OF_PROCESSES - 1).
Proof.
  intros Hwf Hsi Hc Hc0 Hrnd Hfuel.
  destruct (Even_returns fuel processes current) as (r1 & E1 & H1);
    [done|done|lia|].
  destruct (Random_returns rnd processes current) as (r2 & E2 & H2); [done..|].
  destruct (RoundRobin_returns fuel si processes current)
    as (r3 & s3 & E3 & H3); [done|done|lia|].
  destruct (InactiveAging_returns si processes current)
    as (r4 & s4 & E4 & H4); [done..|].
  destruct (RunToCompletion_returns fuel counter0 processes current)
    as (r5 & E5 & H5); [done..|].
  unfold in_range in *.
  repeat split; [exists r1|exists r2|exists r3, s3|exists r4, s4|exists r5];
    (split; [done|lia]).
Qed.

Lemma selectors_return_table_index_witness :
  (exists r, os_Scheduler_Even 7 table_2_5 5 = Ok r
             /\ 0 <= r <= MAX_NUMBER_OF_PROCESSES - 1)
  /\ (exists r, os_Scheduler_Random 12345 table_2_5 5 = Ok r
                /\ 0 <= r <= MAX_NUMBER_OF_PROCESSES - 1)
  /\ (exists r si',
        os_Scheduler_RoundRobin 7 fresh_info table_2_5 5 = Ok (r, si')
        /\ 0 <= r <= MAX_NUMBER_OF_PROCESSES - 1)
  /\ (exists r si',
        os_Scheduler_InactiveAging fresh_info table_2_5 5 = Ok (r, si')
        /\ 0 <= r <= MAX_NUMBER_OF_PROCESSES - 1)
  /\ (exists r,
        os_Scheduler_RunToCompletion 7 0 table_2_5 5 = Ok r
        /\ 0 <= r <= MAX_NUMBER_OF_PROCESSES - 1).
Proof.
  apply (selectors_return_table_index 7 0 12345 fresh_info table_2_5 5).
  - reflexivity.
  - reflexivity.
  - unfold in_range, MAX_NUMBER_OF_PROCESSES. lia.
  - lia.
  - lia.
  - lia.
Defined.

(** ** C7 *)

(** C7: resetting for InactiveAging zeroes every entry of [age]; resetting
    slot [s] leaves [age[s] = 0] whatever it held; and for a strategy other
    than RoundRobin and InactiveAging the reset returns the scheduling state
    as it was. *)
Theorem reset_contract
    (os_processes : list Process) (currentProc : ProcessID)
    (si : SchedulingInformation) :
  info_wf si ->
  (exists si',
     os_resetSchedulingInformation os_processes currentProc si
       OS_SS_INACTIVE_AGING = Ok si'
     /\ length (age si') = length (age si)
     /\ Forall (fun x => x = 0) (age si'))
  /\ (forall s, in_range s ->
        exists si',
          os_resetProcessSchedulingInformation si s = Ok si'
          /\ load (age si') s = Ok 0)
  /\ (forall strategy,
        strategy <> OS_SS_ROUND_ROBIN -> strategy <> OS_SS_INACTIVE_AGING ->
        os_resetSchedulingInformation os_processes currentProc si strategy
        = Ok si).
Proof.
  unfold info_wf. intros Hsi. repeat split.
  - unfold os_resetSchedulingInformation.
    destruct (decide (OS_SS_INACTIVE_AGING = OS_SS_ROUND_ROBIN)); [done|].
    destruct (decide (OS_SS_INACTIVE_AGING = OS_SS_INACTIVE_AGING)); [|done].
    destruct (reset_ages_zero (age si) Hsi) as (a' & E & Hlen & Hz).
    rewrite E. cbn [bind]. by exists (set_age a' si).
  - intros s Hs. unfold in_range in Hs.
    unfold os_resetProcessSchedulingInformation.
    rewrite store_in_bounds by lia. cbn [bind].
    eexists. split; [reflexivity|]. cbn [set_age age].
    apply load_store_eq. lia.
  - intros strategy Hrr Hia. unfold os_resetSchedulingInformation.
    destruct (decide (strategy = OS_SS_ROUND_ROBIN)); [done|].
    by destruct (decide (strategy = OS_SS_INACTIVE_AGING)).
Qed.

Lemma reset_contract_witness :
  (exists si',
     os_resetSchedulingInformation table_2_5 2
       (info_with 2 [1; 2; 3; 4; 5; 6; 7; 8]) OS_SS_INACTIVE_AGING = Ok si'
     /\ length (age si') = length (age (info_with 2 [1; 2; 3; 4; 5; 6; 7; 8]))
     /\ Forall (fun x => x = 0) (age si'))
  /\ (forall s, in_range s ->
        exists si',
          os_resetProcessSchedulingInformation
            (info_with 2 [1; 2; 3; 4; 5; 6; 7; 8]) s = Ok si'
          /\ load (age si') s = Ok 0)
  /\ (forall strategy,
        strategy <> OS_SS_ROUND_ROBIN -> strategy <> OS_SS_INACTIVE_AGING ->
        os_resetSchedulingInformation table_2_5 2
          (info_with 2 [1; 2; 3; 4; 5; 6; 7; 8]) strategy
        = Ok (info_with 2 [1; 2; 3; 4; 5; 6; 7; 8])).
Proof.
  apply (reset_contract table_2_5 2 (info_with 2 [1; 2; 3; 4; 5; 6; 7; 8])).
  reflexivity.
Defined.

(** ** C8 *)

(** C8: on every table, every in-range current slot and every scheduling
    state, each of the five selectors returns a slot id: no array access
    faults and seven iterations of fuel are enough for the scan loop,
    whatever value the uninitialised counter of RunToCompletion holds. *)
Theorem selectors_total
    (fuel : nat) (counter0 rnd : Z) (si : SchedulingInformation)
    (processes : list Process) (current : ProcessID) :
  table_wf processes -> info_wf si -> in_range current ->
  0 <= counter0 < 256 -> 0 <= rnd -> (7 <= fuel)%nat ->
  (exists r, os_Scheduler_Even fuel processes current = Ok r)
  /\ (exists r, os_Scheduler_Random rnd processes current = Ok r)
  /\ (exists r si',
        os_Scheduler_RoundRobin fuel si processes current = Ok (r, si'))
  /\ (exists r si',
        os_Scheduler_InactiveAging si processes current = Ok (r, si'))
  /\ (exists r,
        os_Scheduler_RunToCompletion fuel counter0 processes current = Ok r).
Proof.
  intros Hwf Hsi Hc Hc0 Hrnd Hfuel.
  destruct (Even_returns fuel processes current) as (r1 & E1 & _);
    [done|done|lia|].
  destruct (Random_returns rnd processes current) as (r2 & E2 & _); [done..|].
  destruct (RoundRobin_returns fuel si processes current)
    as (r3 & s3 & E3 & _); [done|done|lia|].
  destruct (InactiveAging_returns si processes current)
    as (r4 & s4 & E4 & _); [done..|].
  destruct (RunToCompletion_returns fuel counter0 processes current)
    as (r5 & E5 & _); [done..|].
  split; [by exists r1|]. split; [by exists r2|].
  split; [by exists r3, s3|]. split; [by exists r4, s4|by exists r5].
Qed.

Lemma selectors_total_witness :
  (exists r, os_Scheduler_Even 7 table_only_7 0 = Ok r)
  /\ (exists r, os_Scheduler_Random 4711 table_only_7 0 = Ok r)
  /\ (exists r si',
        os_Scheduler_RoundRobin 7 fresh_info table_only_7 0 = Ok (r, si'))
  /\ (exists r si',
        os_Scheduler_InactiveAging fresh_info table_only_7 0 = Ok (r, si'))
  /\ (exists r,
        os_Scheduler_RunToCompletion 7 255 table_only_7 0 = Ok r).
Proof.
  apply (selectors_total 7 255 4711 fresh_info table_only_7 0).
  - reflexivity.
  - reflexivity.
  - unfold in_range, MAX_NUMBER_OF_PROCESSES. lia.
  - lia.
  - lia.
  - lia.
Defined.

(** ** C9 *)

(** C9: the third arm of the chain in the selection loop never fires: for
    no table, age array, slot [i] and candidate [Max] is its condition true
    where it is tested, since it implies the condition of the second arm. *)
Theorem InactiveAging_third_branch_dead
    (processes : list Process) (a : list Z) (i Max : Z) :
  IA_select_branch processes a i Max <> Ok Branch_third.
Proof.
  unfold IA_select_branch, IA_cond1, IA_cond2, IA_cond3.
  destruct (load processes i) as [p| |]; cbn [bind]; [|done..].
  destruct (is_READY p); cbn [bind]; [|done].
  destruct (load a i) as [ai| |]; cbn [bind]; [|done..].
  destruct (load a Max) as [am| |]; cbn [bind]; [|done..].
  destruct (am <? ai); cbn [bind]; [done|].
  destruct (ai =? am); cbn [bind]; [|done].
  destruct (load processes Max) as [pm| |]; cbn [bind]; [|done..].
  destruct (priority pm <? priority p); cbn [bind]; done.
Qed.

Lemma InactiveAging_third_branch_dead_witness :
  IA_select_branch (table_1_2 unused_slot) [0; 0; 0; 0; 0; 0; 0; 0] 1 2
  <> Ok Branch_third.
Proof.
  apply (InactiveAging_third_branch_dead
           (table_1_2 unused_slot) [0; 0; 0; 0; 0; 0; 0; 0] 1 2).
Defined.

(** ** C10 *)

(** C10: with ticks remaining, RoundRobin reads no process record: on any
    two tables, with the same current slot and scheduling state, it returns
    the same slot and the same new state, namely [current] and the state
    with the counter decremented; the state of [current] in the table plays
    no part. *)
Theorem RoundRobin_slice_ignores_table
    (fuel : nat) (si : SchedulingInformation)
    (processes1 processes2 : list Process) (current : ProcessID) :
  0 < Zeitschiebe si < 256 ->
  os_Scheduler_RoundRobin fuel si processes1 current
  = os_Scheduler_RoundRobin fuel si processes2 current
  /\ os_Scheduler_RoundRobin fuel si processes1 current
     = Ok (current, set_Zeitschiebe (Zeitschiebe si - 1) si).
Proof.
  intros Hz. rewrite !RoundRobin_keep by lia.
  split; [done|]. do 3 f_equal. unfold uint8. rewrite Z.mod_small; lia.
Qed.

Lemma RoundRobin_slice_ignores_table_witness :
  os_Scheduler_RoundRobin 7 (info_with 3 (replicate 8 0)) table_2_5 4
  = os_Scheduler_RoundRobin 7 (info_with 3 (replicate 8 0)) table_only_7 4
  /\ os_Scheduler_RoundRobin 7 (info_with 3 (replicate 8 0)) table_2_5 4
     = Ok (4, set_Zeitschiebe
                (Zeitschiebe (info_with 3 (replicate 8 0)) - 1)
                (info_with 3 (replicate 8 0))).
Proof.
  apply (RoundRobin_slice_ignores_table
           7 (info_with 3 (replicate 8 0)) table_2_5 table_only_7 4).
  simpl. lia.
Defined.

(** * Further properties *)

(** ** Even, RoundRobin and RunToCompletion *)

(** X1: Even returns 0 exactly when none of the slots it probes is READY
    (the real slots other than [current], without the last one when
    [current] is 0).  Otherwise it returns a READY slot other than
    [current], the first one met going up from [current] and wrapping from
    the last slot to slot 1: no slot passed over on the way is READY. *)
Theorem Even_first_ready_after_current
    (fuel : nat) (processes : list Process) (current : ProcessID) :
  table_wf processes -> in_range current -> (6 <= fuel)%nat ->
  exists r,
    os_Scheduler_Even fuel processes current = Ok r
    /\ (r = 0 <->
        forall k, real_slot k -> k <> current ->
          (current = 0 -> k <> MAX_NUMBER_OF_PROCESSES - 1) ->
          slot_ready processes k = false)
    /\ (r <> 0 ->
        slot_ready processes r = true /\ r <> current
        /\ forall j, real_slot j ->
             (current < r -> current < j < r) ->
             (r < current -> current < j \/ j < r) ->
             slot_ready processes j = false).
Proof.
  intros Hwf Hc Hfuel. rewrite Even_spec by done.
  eexists. split; [reflexivity|]. split; [split|].
  - intros Hz k Hk Hne Hlast.
    destruct (first_ready_cases processes (scan_window current))
      as [[_ Hnone]|[Hin _]].
    + eapply find_none in Hnone; [done|]. by apply scan_window_spec.
    + apply scan_window_real in Hin; [|done].
      unfold real_slot in Hin. lia.
  - intros Hnone. apply first_ready_none. intros k Hin.
    pose proof (scan_window_real current k Hc Hin) as Hk.
    apply scan_window_spec in Hin as [Hne Hlast]; [|done..]. by apply Hnone.
  - apply in_range_cases in Hc.
    repeat (destruct Hc as [Hc|Hc]); subst current;
      unfold first_ready;
      match goal with
      | |- context [scan_window ?c] =>
          let l := eval vm_compute in (scan_window c) in
          change (scan_window c) with l
      end;
      cbn [find];
      repeat (match goal with
              | |- context [if slot_ready processes ?k then _ else _] =>
                  destruct (slot_ready processes k) eqn:?
              end);
      intros Hnz; try done;
      (split; [done|]); (split; [lia|]);
      intros j Hj Hup Hwrap; apply real_slot_cases in Hj;
      repeat (destruct Hj as [Hj|Hj]); subst;
      solve [done | lia].
Qed.

Lemma Even_first_ready_after_current_witness :
  exists r,
    os_Scheduler_Even 7 table_2_5 5 = Ok r
    /\ (r = 0 <->
        forall k, real_slot k -> k <> 5 ->
          (5 = 0 -> k <> MAX_NUMBER_OF_PROCESSES - 1) ->
          slot_ready table_2_5 k = false)
    /\ (r <> 0 ->
        slot_ready table_2_5 r = true /\ r <> 5
        /\ forall j, real_slot j ->
             (5 < r -> 5 < j < r) ->
             (r < 5 -> 5 < j \/ j < r) ->
             slot_ready table_2_5 j = false).
Proof.
  apply (Even_first_ready_after_current 7 table_2_5 5).
  - reflexivity.
  - unfold in_range, MAX_NUMBER_OF_PROCESSES. lia.
  - lia.
Defined.

(** X2: when no ticks remain, RoundRobin returns the slot that Even returns
    for the same table and current slot.  A nonzero slot has its priority
    stored as the new countdown; when 0 is returned the scheduling state is
    left as it was.  The ages are not touched. *)
Theorem RoundRobin_scan_is_Even
    (fuel : nat) (si : SchedulingInformation) (processes : list Process)
    (current : ProcessID) :
  table_wf processes -> in_range current -> (6 <= fuel)%nat ->
  Zeitschiebe si <= 0 ->
  exists r si',
    os_Scheduler_RoundRobin fuel si processes current = Ok (r, si')
    /\ os_Scheduler_Even fuel processes current = Ok r
    /\ age si' = age si
    /\ (r <> 0 -> Zeitschiebe si' = prio_of processes r)
    /\ (r = 0 -> si' = si).
Proof.
  intros Hwf Hc Hfuel Hz.
  rewrite RoundRobin_scan, Even_spec by done. unfold first_ready.
  destruct (find _ _) as [i|] eqn:E.
  - exists i, (set_Zeitschiebe (prio_of processes i) si).
    repeat split; try done.
    intros ->. apply find_some in E as [Hin _].
    apply scan_window_real in Hin; [|done]. unfold real_slot in Hin. lia.
  - exists 0, si. by repeat split.
Qed.

Lemma RoundRobin_scan_is_Even_witness :
  exists r si',
    os_Scheduler_RoundRobin 7 fresh_info table_2_5 5 = Ok (r, si')
    /\ os_Scheduler_Even 7 table_2_5 5 = Ok r
    /\ age si' = age fresh_info
    /\ (r <> 0 -> Zeitschiebe si' = prio_of table_2_5 r)
    /\ (r = 0 -> si' = fresh_info).
Proof.
  apply (RoundRobin_scan_is_Even 7 fresh_info table_2_5 5).
  - reflexivity.
  - unfold in_range, MAX_NUMBER_OF_PROCESSES. lia.
  - lia.
  - simpl. lia.
Defined.

(** X3: resetting for RoundRobin stores the priority p of the kernel's
    current process as the countdown and leaves the ages alone.  RoundRobin
    then returns that process for the next p calls, whatever the table
    holds, and the countdown is 0 afterwards.  The call after those is a
    scan: it returns the slot Even returns, which is another slot than the
    current process when that is a real slot; when the current process is
    slot 0 the scan may return 0 once more. *)
Theorem reset_RoundRobin_grants_priority_ticks
    (os_processes : list Process) (currentProc : ProcessID)
    (si : SchedulingInformation) (p : Process) :
  load os_processes currentProc = Ok p -> 0 <= priority p < 256 ->
  exists si',
    os_resetSchedulingInformation os_processes currentProc si
      OS_SS_ROUND_ROBIN = Ok si'
    /\ Zeitschiebe si' = priority p
    /\ age si' = age si
    /\ (forall fuel processes,
          RoundRobin_ticks (Z.to_nat (priority p)) fuel si' processes
            currentProc
          = Ok (replicate (Z.to_nat (priority p)) currentProc,
                set_Zeitschiebe 0 si'))
    /\ (forall fuel processes,
          table_wf processes -> in_range currentProc -> (6 <= fuel)%nat ->
          exists r si'',
            os_Scheduler_RoundRobin fuel (set_Zeitschiebe 0 si') processes
              currentProc = Ok (r, si'')
            /\ os_Scheduler_Even fuel processes currentProc = Ok r
            /\ (real_slot currentProc -> r <> currentProc)).
Proof.
  intros Hp Hrange. unfold os_resetSchedulingInformation.
  destruct (decide (OS_SS_ROUND_ROBIN = OS_SS_ROUND_ROBIN)); [|done].
  rewrite Hp. cbn [bind]. eexists. split; [reflexivity|].
  split; [done|]. split; [done|]. split.
  - intros fuel processes. rewrite RoundRobin_keeps_slice.
    + do 2 f_equal. unfold set_Zeitschiebe. cbn [Zeitschiebe age].
      f_equal. lia.
    + cbn [set_Zeitschiebe Zeitschiebe]. lia.
  - intros fuel processes Hwf Hc Hfuel.
    rewrite RoundRobin_scan, Even_spec
      by (done || (cbn [set_Zeitschiebe Zeitschiebe]; lia)).
    assert (real_slot currentProc ->
            first_ready processes (scan_window currentProc) <> currentProc)
      as Hother.
    { intros Hreal.
      destruct (first_ready_cases processes (scan_window currentProc))
        as [[-> _]|[Hin _]].
      - unfold real_slot in Hreal. lia.
      - pose proof (scan_window_real currentProc _ Hc Hin) as Hr.
        apply scan_window_spec in Hin as [Hne _]; done. }
    unfold first_ready in *.
    destruct (find (slot_ready processes) (scan_window currentProc)) as [i|];
      eauto.
Qed.

(** On [table_2_5], after a reset with slot 2 (priority 3) running, three
    calls return slot 2 and the fourth returns slot 5. *)
Lemma reset_RoundRobin_grants_priority_ticks_witness :
  exists si',
    os_resetSchedulingInformation table_2_5 2 fresh_info
      OS_SS_ROUND_ROBIN = Ok si'
    /\ Zeitschiebe si' = 3
    /\ RoundRobin_ticks 3 7 si' table_2_5 2
       = Ok ([2; 2; 2], set_Zeitschiebe 0 si')
    /\ exists r si'',
         os_Scheduler_RoundRobin 7 (set_Zeitschiebe 0 si') table_2_5 2
         = Ok (r, si'')
         /\ os_Scheduler_Even 7 table_2_5 2 = Ok r
         /\ r <> 2.
Proof.
  destruct (reset_RoundRobin_grants_priority_ticks
              table_2_5 2 fresh_info (ready_slot 3))
    as (si' & E & Hz & _ & Hticks & Hscan).
  - reflexivity.
  - simpl. lia.
  - exists si'. split; [exact E|]. split; [exact Hz|].
    split; [exact (Hticks 7%nat table_2_5)|].
    destruct (Hscan 7%nat table_2_5) as (r & si'' & Hrr & Heven & Hne).
    + reflexivity.
    + unfold in_range, MAX_NUMBER_OF_PROCESSES. lia.
    + lia.
    + exists r, si''. split; [exact Hrr|]. split; [exact Heven|].
      apply Hne. unfold real_slot, MAX_NUMBER_OF_PROCESSES. lia.
Defined.

(** X4: RunToCompletion returns [current] when it is RUNNING.  Otherwise it
    looks at the slots 1, 2, ... n in this order, n being the number of
    probes its loop makes, and returns the lowest READY one, or 0 when none
    of them is READY; where [current] lies plays no part. *)
Theorem RunToCompletion_lowest_ready
    (fuel : nat) (counter0 : Z) (processes : list Process)
    (current : ProcessID) :
  table_wf processes -> in_range current -> 0 <= counter0 < 256 ->
  (7 <= fuel)%nat ->
  exists r,
    os_Scheduler_RunToCompletion fuel counter0 processes current = Ok r
    /\ (slot_running processes current = true -> r = current)
    /\ (slot_running processes current = false ->
        (r = 0
         /\ forall j, 1 <= j <= Z.of_nat (scan_probes counter0) ->
              slot_ready processes j = false)
        \/ (1 <= r <= Z.of_nat (scan_probes counter0)
            /\ slot_ready processes r = true
            /\ forall j, 1 <= j < r -> slot_ready processes j = false)).
Proof.
  intros Hwf Hc Hc0 Hfuel. rewrite RunToCompletion_spec by done.
  eexists. split; [reflexivity|].
  destruct (slot_running processes current); (split; [done|]); [done|].
  intros _. unfold first_ready.
  assert (1 <= scan_probes counter0 <= 7)%nat as Hn
    by (destruct (scan_probes_bounds counter0); lia).
  destruct (scan_probes counter0) as [|n]; [lia|].
  do 7 (try (destruct n as [|n]; [|])); try lia;
    match goal with
    | |- context [probe_seq ?m ?i] =>
        let l := eval vm_compute in (probe_seq m i) in
        change (probe_seq m i) with l
    end;
    cbn [find];
    repeat (match goal with
            | |- context [if slot_ready processes ?k then _ else _] =>
                destruct (slot_ready processes k) eqn:?
            end);
    first
      [ left; split; [done|]; intros j Hj;
        assert (j = 1 \/ j = 2 \/ j = 3 \/ j = 4 \/ j = 5 \/ j = 6 \/ j = 7)
          as Hcases by lia;
        repeat (destruct Hcases as [Hcases|Hcases]); subst;
        solve [done | lia]
      | right; split; [lia|]; split; [done|]; intros j Hj;
        assert (j = 1 \/ j = 2 \/ j = 3 \/ j = 4 \/ j = 5 \/ j = 6 \/ j = 7)
          as Hcases by lia;
        repeat (destruct Hcases as [Hcases|Hcases]); subst;
        solve [done | lia] ].
Qed.

Lemma RunToCompletion_lowest_ready_witness :
  exists r,
    os_Scheduler_RunToCompletion 7 0 table_2_5 7 = Ok r
    /\ (slot_running table_2_5 7 = true -> r = 7)
    /\ (slot_running table_2_5 7 = false ->
        (r = 0
         /\ forall j, 1 <= j <= Z.of_nat (scan_probes 0) ->
              slot_ready table_2_5 j = false)
        \/ (1 <= r <= Z.of_nat (scan_probes 0)
            /\ slot_ready table_2_5 r = true
            /\ forall j, 1 <= j < r -> slot_ready table_2_5 j = false)).
Proof.
  apply (RunToCompletion_lowest_ready 7 0 table_2_5 7).
  - reflexivity.
  - unfold in_range, MAX_NUMBER_OF_PROCESSES. lia.
  - lia.
  - lia.
Defined.

(** ** InactiveAging *)

(** X5: with ticks remaining, InactiveAging returns [current], decrements
    the countdown, and adds to the age of every real slot other than
    [current] that slot's priority, modulo 256; the ages of slot 0 and of
    [current] stay as they were. *)
Theorem InactiveAging_aging_phase
    (si : SchedulingInformation) (processes : list Process)
    (current : ProcessID) :
  table_wf processes -> info_wf si -> 0 < Zeitschiebe si ->
  exists si',
    os_Scheduler_InactiveAging si processes current = Ok (current, si')
    /\ Zeitschiebe si' = uint8 (Zeitschiebe si - 1)
    /\ length (age si') = length (age si)
    /\ forall m, in_range m ->
         age_of (age si') m
         = if decide (1 <= m /\ m <> current)
           then uint8 (age_of (age si) m + prio_of processes m)
           else age_of (age si) m.
Proof.
  unfold table_wf, info_wf. intros Hwf Hsi Hz.
  unfold os_Scheduler_InactiveAging.
  destruct (Z.ltb_spec 0 (Zeitschiebe si)); [|lia].
  cbn [age set_Zeitschiebe].
  destruct (for_range_inv
              (fun i a =>
                 length a = length (age si)
                 /\ forall m, in_range m ->
                      age_of a m
                      = if decide (1 <= m < i /\ m <> current)
                        then uint8 (age_of (age si) m + prio_of processes m)
                        else age_of (age si) m)
              (IA_aging_body processes current) 1 8 (age si))
    as (a & E & Hlen & Hages); [lia| | |].
  - split; [done|]. intros m Hm. case_decide; [lia|done].
  - intros i t Hi [Hlen Hages]. unfold IA_aging_body.
    assert (in_range i) as Hir
      by (unfold in_range, MAX_NUMBER_OF_PROCESSES; lia).
    destruct (Z.eqb_spec current i) as [Heq|Hne]; cbn [negb].
    + exists t. split; [done|]. split; [done|]. intros m Hm.
      rewrite Hages by done. repeat case_decide; try done; lia.
    + destruct (load_in_bounds processes i) as [p Hp];
        [unfold MAX_NUMBER_OF_PROCESSES in *; lia|].
      destruct (load_in_bounds t i) as [ti Hti];
        [unfold MAX_NUMBER_OF_PROCESSES in *; lia|].
      rewrite Hp, Hti. cbn [bind].
      rewrite store_in_bounds by (unfold MAX_NUMBER_OF_PROCESSES in *; lia).
      eexists. split; [reflexivity|]. split; [by rewrite length_insert|].
      intros m Hm. unfold in_range in Hm.
      destruct (Z.eq_dec m i) as [->|Hmi].
      * unfold age_of at 1.
        rewrite load_store_eq
          by (unfold MAX_NUMBER_OF_PROCESSES in *; lia).
        specialize (Hages i Hir).
        unfold age_of in Hages at 1. rewrite Hti in Hages.
        unfold prio_of. rewrite Hp.
        repeat case_decide; try lia. by rewrite Hages.
      * unfold age_of at 1. rewrite load_store_ne by lia.
        fold (age_of t m). rewrite Hages by done.
        repeat case_decide; try done; lia.
  - rewrite E. cbn [bind]. eexists. split; [reflexivity|].
    cbn [set_age set_Zeitschiebe Zeitschiebe age].
    split; [done|]. split; [done|]. intros m Hm.
    rewrite Hages by done. unfold in_range, MAX_NUMBER_OF_PROCESSES in Hm.
    repeat case_decide; try done; lia.
Qed.

Lemma InactiveAging_aging_phase_witness :
  exists si',
    os_Scheduler_InactiveAging (info_with 2 [0; 250; 7; 0; 0; 9; 0; 0])
      table_2_5 5 = Ok (5, si')
    /\ Zeitschiebe si'
       = uint8 (Zeitschiebe (info_with 2 [0; 250; 7; 0; 0; 9; 0; 0]) - 1)
    /\ length (age si')
       = length (age (info_with 2 [0; 250; 7; 0; 0; 9; 0; 0]))
    /\ forall m, in_range m ->
         age_of (age si') m
         = if decide (1 <= m /\ m <> 5)
           then uint8 (age_of (age (info_with 2 [0; 250; 7; 0; 0; 9; 0; 0])) m
                       + prio_of table_2_5 m)
           else age_of (age (info_with 2 [0; 250; 7; 0; 0; 9; 0; 0])) m.
Proof.
  apply (InactiveAging_aging_phase
           (info_with 2 [0; 250; 7; 0; 0; 9; 0; 0]) table_2_5 5).
  - reflexivity.
  - reflexivity.
  - simpl. lia.
Defined.

Lemma InactiveAging_select_frame si processes current :
  table_wf processes -> info_wf si -> in_range current ->
  Zeitschiebe si <= 0 ->
  exists r si',
    os_Scheduler_InactiveAging si processes current = Ok (r, si')
    /\ in_range r /\ info_wf si'
    /\ Zeitschiebe si' = Zeitschiebe si
    /\ age si' = reseeded si processes current.
Proof.
  intros Hwf Hsi Hc Hz.
  destruct (InactiveAging_select si processes current)
    as (Max & E & HM & _); [done..|].
  exists Max, (set_age (reseeded si processes current) si).
  split; [done|]. split; [unfold in_range, MAX_NUMBER_OF_PROCESSES; lia|].
  split; [|done]. unfold info_wf in *. cbn [set_age age].
  by rewrite reseeded_length.
Qed.

(** X6: the selection phase never re-arms the countdown.  Started with no
    ticks remaining, any number of successive calls of InactiveAging all
    run the selection phase: the countdown keeps its value, and every age
    is at any time either what it was at the start or the priority of its
    slot; no age accumulates. *)
Theorem InactiveAging_never_accumulates (n : nat) :
  forall (si : SchedulingInformation) (processes : list Process)
         (current : ProcessID),
    table_wf processes -> info_wf si -> in_range current ->
    Zeitschiebe si <= 0 ->
    exists rs si',
      InactiveAging_ticks n si processes current = Ok (rs, si')
      /\ length rs = n
      /\ Zeitschiebe si' = Zeitschiebe si
      /\ forall m, in_range m ->
           age_of (age si') m = age_of (age si) m
           \/ age_of (age si') m = prio_of processes m.
Proof.
  induction n as [|n IH]; intros si processes current Hwf Hsi Hc Hz.
  - exists [], si. cbn [InactiveAging_ticks]. repeat split; auto.
  - destruct (InactiveAging_select_frame si processes current)
      as (r & si1 & E & Hr & Hsi1 & Hz1 & Hage1); [done..|].
    destruct (IH si1 processes r) as (rs & si2 & E2 & Hlen & Hz2 & Hage2);
      [done|done|done|lia|].
    exists (r :: rs), si2. cbn [InactiveAging_ticks].
    rewrite E. cbn [bind]. rewrite E2. cbn [bind].
    split; [done|]. split; [cbn [length]; lia|]. split; [lia|].
    intros m Hm. destruct (Hage2 m Hm) as [Heq|Heq]; [|by right].
    rewrite Heq, Hage1, age_of_reseeded by done.
    destruct (decide (m = current)) as [->|]; [by right|by left].
Qed.

Lemma InactiveAging_never_accumulates_witness :
  exists rs si',
    InactiveAging_ticks 4 fresh_info table_2_5 5 = Ok (rs, si')
    /\ length rs = 4%nat
    /\ Zeitschiebe si' = Zeitschiebe fresh_info
    /\ forall m, in_range m ->
         age_of (age si') m = age_of (age fresh_info) m
         \/ age_of (age si') m = prio_of table_2_5 m.
Proof.
  apply (InactiveAging_never_accumulates 4 fresh_info table_2_5 5).
  - reflexivity.
  - reflexivity.
  - unfold in_range, MAX_NUMBER_OF_PROCESSES. lia.
  - simpl. lia.
Defined.

(** X7: with no ticks remaining, InactiveAging returns slot 0 exactly when
    no READY real slot, after [age[current]] is re-seeded, is older than
    slot 0 or as old and of higher priority; READY slots that only tie with
    the record of slot 0 do not displace it. *)
Theorem InactiveAging_idle_iff_unbeaten
    (si : SchedulingInformation) (processes : list Process)
    (current : ProcessID) :
  table_wf processes -> info_wf si -> in_range current ->
  Zeitschiebe si <= 0 ->
  exists r si',
    os_Scheduler_InactiveAging si processes current = Ok (r, si')
    /\ (r = 0 <->
        forall k, real_slot k -> slot_ready processes k = true ->
          ~ beats processes (reseeded si processes current) 0 k).
Proof.
  intros Hwf Hsi Hc Hz.
  destruct (InactiveAging_select si processes current)
    as (Max & E & Hinv); [done..|].
  exists Max, (set_age (reseeded si processes current) si).
  split; [done|]. split.
  - intros -> k Hk Hkr Hb.
    by apply (IA_scan_inv_nonzero _ _ _ _ Hinv Hk Hkr Hb).
  - intros Hnone. destruct Hinv as (HM & Hnz & _).
    destruct (Z.eq_dec Max 0) as [|Hne]; [done|exfalso].
    destruct (Hnz Hne) as [Hr Hb].
    apply (Hnone Max); [|done..].
    unfold real_slot, MAX_NUMBER_OF_PROCESSES. lia.
Qed.

Lemma InactiveAging_idle_iff_unbeaten_witness :
  exists r si',
    os_Scheduler_InactiveAging fresh_info
      (table_1_2 (mkProcess OS_PS_READY 2)) 0 = Ok (r, si')
    /\ (r = 0 <->
        forall k, real_slot k ->
          slot_ready (table_1_2 (mkProcess OS_PS_READY 2)) k = true ->
          ~ beats (table_1_2 (mkProcess OS_PS_READY 2))
              (reseeded fresh_info (table_1_2 (mkProcess OS_PS_READY 2)) 0)
              0 k).
Proof.
  apply (InactiveAging_idle_iff_unbeaten fresh_info
           (table_1_2 (mkProcess OS_PS_READY 2)) 0).
  - reflexivity.
  - reflexivity.
  - unfold in_range, MAX_NUMBER_OF_PROCESSES. lia.
  - simpl. lia.
Defined.

Lemma InactiveAging_dominant_step si processes c :
  table_wf processes -> info_wf si -> real_slot c ->
  slot_ready processes c = true -> Zeitschiebe si <= 0 ->
  (forall j, in_range j -> j <> c ->
     age_of (age si) j < prio_of processes c) ->
  os_Scheduler_InactiveAging si processes c
  = Ok (c, set_age (reseeded si processes c) si).
Proof.
  intros Hwf Hsi Hc Hcr Hz Hdom.
  assert (in_range c) as Hc' by (unfold real_slot, in_range in *; lia).
  destruct (InactiveAging_select si processes c)
    as (Max & E & HM & _ & Hall); [done..|].
  rewrite E. do 2 f_equal.
  destruct (Z.eq_dec Max c) as [|Hne]; [done|exfalso].
  destruct (Hall c) as [Hle _];
    [unfold real_slot, MAX_NUMBER_OF_PROCESSES in Hc; lia|done|].
  assert (in_range Max) as HMr
    by (unfold in_range, MAX_NUMBER_OF_PROCESSES; lia).
  specialize (Hdom Max HMr Hne).
  unfold beats_or_ties, beats in Hle.
  rewrite !age_of_reseeded in Hle by done.
  repeat case_decide; try done; lia.
Qed.

(** X8: a READY real [current] whose priority exceeds the age of every
    other slot is selected again, and keeps being selected call after call
    while no ticks remain and the table stays as it is: the ages of the
    other slots never change.  After a reset for InactiveAging (all ages 0)
    this holds for every READY [current] of positive priority. *)
Theorem InactiveAging_dominant_current_monopolises (n : nat) :
  forall (si : SchedulingInformation) (processes : list Process)
         (c : ProcessID),
    table_wf processes -> info_wf si -> real_slot c ->
    slot_ready processes c = true -> Zeitschiebe si <= 0 ->
    (forall j, in_range j -> j <> c ->
       age_of (age si) j < prio_of processes c) ->
    exists si',
      InactiveAging_ticks n si processes c = Ok (replicate n c, si')
      /\ Zeitschiebe si' = Zeitschiebe si
      /\ forall j, in_range j -> j <> c ->
           age_of (age si') j = age_of (age si) j.
Proof.
  induction n as [|n IH]; intros si processes c Hwf Hsi Hc Hcr Hz Hdom.
  - exists si. by cbn [InactiveAging_ticks replicate].
  - assert (in_range c) as Hc' by (unfold real_slot, in_range in *; lia).
    assert (forall j, in_range j -> j <> c ->
              age_of (age (set_age (reseeded si processes c) si)) j
              = age_of (age si) j) as Hsame.
    { intros j Hj Hne. cbn [set_age age].
      rewrite age_of_reseeded by done. by case_decide. }
    destruct (IH (set_age (reseeded si processes c) si) processes c)
      as (si' & E & Hz' & Hages); [done| |done|done|done| |].
    + unfold info_wf in *. cbn [set_age age]. by rewrite reseeded_length.
    + intros j Hj Hne. rewrite Hsame by done. by apply Hdom.
    + exists si'. cbn [InactiveAging_ticks].
      rewrite InactiveAging_dominant_step by done. cbn [bind].
      rewrite E. cbn [bind replicate]. split; [done|]. split; [done|].
      intros j Hj Hne. rewrite Hages by done. by apply Hsame.
Qed.

Lemma InactiveAging_dominant_current_monopolises_witness :
  exists si',
    InactiveAging_ticks 5 fresh_info table_2_5 5
    = Ok (replicate 5 5, si')
    /\ Zeitschiebe si' = Zeitschiebe fresh_info
    /\ forall j, in_range j -> j <> 5 ->
         age_of (age si') j = age_of (age fresh_info) j.
Proof.
  apply (InactiveAging_dominant_current_monopolises 5 fresh_info table_2_5 5).
  - reflexivity.
  - reflexivity.
  - unfold real_slot, MAX_NUMBER_OF_PROCESSES. lia.
  - reflexivity.
  - simpl. lia.
  - intros j Hj Hne. apply in_range_cases in Hj.
    repeat (destruct Hj as [Hj|Hj]); subst; try done; vm_compute; reflexivity.
Defined.

(** ** Reset operations *)

(** X9: resetting slot [s] touches nothing but [age[s]]: the countdown and
    the age of every other slot are as before.  With [s] outside the age
    array the write is out of bounds. *)
Theorem resetProcess_frame (si : SchedulingInformation) (s : ProcessID) :
  (0 <= s < Z.of_nat (length (age si)) ->
   exists si',
     os_resetProcessSchedulingInformation si s = Ok si'
     /\ Zeitschiebe si' = Zeitschiebe si
     /\ length (age si') = length (age si)
     /\ forall j, 0 <= j -> j <> s -> load (age si') j = load (age si) j)
  /\ (~ 0 <= s < Z.of_nat (length (age si)) ->
      os_resetProcessSchedulingInformation si s = Fault).
Proof.
  unfold os_resetProcessSchedulingInformation. split.
  - intros Hs. rewrite store_in_bounds by done. cbn [bind].
    eexists. split; [reflexivity|]. cbn [set_age Zeitschiebe age].
    split; [done|]. split; [by rewrite length_insert|].
    intros j Hj Hne. apply load_store_ne; lia.
  - intros Hs. unfold store.
    destruct (Z.leb_spec 0 s); cbn [andb]; [|done].
    destruct (Z.ltb_spec s (Z.of_nat (length (age si)))); [lia|done].
Qed.

Lemma resetProcess_frame_witness :
  (exists si',
     os_resetProcessSchedulingInformation
       (info_with 2 [1; 2; 3; 4; 5; 6; 7; 8]) 3 = Ok si'
     /\ Zeitschiebe si' = 2
     /\ load (age si') 3 = Ok 0
     /\ load (age si') 4 = Ok 5)
  /\ os_resetProcessSchedulingInformation
       (info_with 2 [1; 2; 3; 4; 5; 6; 7; 8]) 8 = Fault.
Proof.
  destruct (resetProcess_frame (info_with 2 [1; 2; 3; 4; 5; 6; 7; 8]) 3)
    as [Hin _].
  destruct (resetProcess_frame (info_with 2 [1; 2; 3; 4; 5; 6; 7; 8]) 8)
    as [_ Hout].
  split.
  - destruct Hin as (si' & E & Hz & Hlen & Hframe); [simpl; lia|].
    exists si'. split; [done|]. split; [done|].
    split; [|rewrite Hframe; [reflexivity|lia|lia]].
    vm_compute in E. injection E as <-. reflexivity.
  - apply Hout. simpl. lia.
Defined.

(** X10: a reset for InactiveAging leaves exactly the state with the same
    countdown and all N ages 0, whatever the ages were.  Repeating it, or
    resetting a single slot afterwards, changes nothing more. *)
Theorem reset_InactiveAging_absorbs
    (os_processes : list Process) (currentProc : ProcessID)
    (si : SchedulingInformation) :
  info_wf si ->
  os_resetSchedulingInformation os_processes currentProc si
    OS_SS_INACTIVE_AGING
  = Ok (set_age (replicate 8 0) si)
  /\ os_resetSchedulingInformation os_processes currentProc
       (set_age (replicate 8 0) si) OS_SS_INACTIVE_AGING
     = Ok (set_age (replicate 8 0) si)
  /\ forall s, in_range s ->
       os_resetProcessSchedulingInformation (set_age (replicate 8 0) si) s
       = Ok (set_age (replicate 8 0) si).
Proof.
  intros Hsi.
  assert (forall si0, info_wf si0 ->
            os_resetSchedulingInformation os_processes currentProc si0
              OS_SS_INACTIVE_AGING
            = Ok (set_age (replicate 8 0) si0)) as Hreset.
  { intros si0 Hsi0. unfold os_resetSchedulingInformation.
    destruct (decide (OS_SS_INACTIVE_AGING = OS_SS_ROUND_ROBIN)); [done|].
    destruct (decide (OS_SS_INACTIVE_AGING = OS_SS_INACTIVE_AGING)); [|done].
    destruct (reset_ages_zero (age si0) Hsi0) as (a' & E & Hlen & Hz).
    rewrite E. cbn [bind]. do 2 f_equal.
    unfold info_wf, MAX_NUMBER_OF_PROCESSES in Hsi0.
    symmetry. apply replicate_as_Forall. split; [lia|].
    eapply Forall_impl; [exact Hz|]. by intros x ->. }
  split; [by apply Hreset|]. split.
  - rewrite Hreset; [done|]. unfold info_wf. done.
  - intros s Hs. unfold in_range, MAX_NUMBER_OF_PROCESSES in Hs.
    unfold os_resetProcessSchedulingInformation. cbn [set_age age].
    rewrite store_in_bounds by (rewrite length_replicate; lia).
    cbn [bind]. unfold set_age. cbn [Zeitschiebe age]. do 2 f_equal.
    apply list_insert_id. apply lookup_replicate_2. lia.
Qed.

Lemma reset_InactiveAging_absorbs_witness :
  os_resetSchedulingInformation table_2_5 2
    (info_with 2 [1; 2; 3; 4; 5; 6; 7; 8]) OS_SS_INACTIVE_AGING
  = Ok (set_age (replicate 8 0) (info_with 2 [1; 2; 3; 4; 5; 6; 7; 8]))
  /\ os_resetSchedulingInformation table_2_5 2
       (set_age (replicate 8 0) (info_with 2 [1; 2; 3; 4; 5; 6; 7; 8]))
       OS_SS_INACTIVE_AGING
     = Ok (set_age (replicate 8 0) (info_with 2 [1; 2; 3; 4; 5; 6; 7; 8]))
  /\ forall s, in_range s ->
       os_resetProcessSchedulingInformation
         (set_age (replicate 8 0) (info_with 2 [1; 2; 3; 4; 5; 6; 7; 8])) s
       = Ok (set_age (replicate 8 0) (info_with 2 [1; 2; 3; 4; 5; 6; 7; 8])).
Proof.
  apply (reset_InactiveAging_absorbs table_2_5 2
           (info_with 2 [1; 2; 3; 4; 5; 6; 7; 8])).
  reflexivity.
Defined.

(** ** Random *)

Lemma Random_collect processes :
  table_wf processes ->
  forall (idx : list Z) (procIndex : list (option Z)) (i : nat),
    (forall j, In j idx -> in_range j) ->
    (length procIndex < 256)%nat -> (i <= length procIndex)%nat ->
    for_each (Random_collect_body processes) idx (procIndex, Z.of_nat i)
    = if decide (i + length (filter (fun j => slot_ready processes j = true)
                               idx) <= length procIndex)%nat
      then Ok (take i procIndex
               ++ (Some <$> filter (fun j => slot_ready processes j = true) idx)
               ++ drop (i + length (filter
                                      (fun j => slot_ready processes j = true)
                                      idx)) procIndex,
               Z.of_nat (i + length (filter
                                       (fun j => slot_ready processes j = true)
                                       idx)))
      else Fault.
Proof.
  intros Hwf idx. induction idx as [|j idx IH]; intros pi i Hidx Hlen Hi.
  - cbn [for_each filter list_filter length fmap list_fmap app].
    rewrite Nat.add_0_r. case_decide; [|lia]. by rewrite take_drop.
  - cbn [for_each]. unfold Random_collect_body at 1.
    destruct (slot_ready_load processes j Hwf) as (p & Hp & Hr).
    { apply Hidx. by left. }
    rewrite Hp. cbn [bind]. rewrite Hr.
    assert (forall k, In k idx -> in_range k) as Hidx'
      by (intros k Hk; apply Hidx; by right).
    destruct (slot_ready processes j) eqn:Hj.
    + rewrite filter_cons_True by done. cbn [length].
      destruct (decide (i < length pi)%nat) as [Hlt|Hge].
      * rewrite store_in_bounds by lia. cbn [bind].
        replace (uint8 (Z.of_nat i + 1)) with (Z.of_nat (S i))
          by (unfold uint8; rewrite Z.mod_small; lia).
        rewrite Nat2Z.id.
        rewrite IH by (rewrite ?length_insert; done || lia).
        rewrite length_insert.
        replace (S i + length (filter
                   (fun j0 => slot_ready processes j0 = true) idx))%nat
          with (i + S (length (filter
                   (fun j0 => slot_ready processes j0 = true) idx)))%nat
          by lia.
        case_decide; [|done]. do 2 f_equal.
        rewrite (take_S_r _ _ (Some j))
          by (apply list_lookup_insert_eq; lia).
        rewrite take_insert_ge by lia.
        rewrite drop_insert_lt by lia.
        rewrite <- app_assoc. reflexivity.
      * unfold store.
        destruct (Z.ltb_spec (Z.of_nat i) (Z.of_nat (length pi))); [lia|].
        rewrite andb_false_r. cbn [bind]. case_decide; [lia|done].
    + rewrite filter_cons_False by congruence. by apply IH.
Qed.

Lemma seqZ_in_range k : In k (seqZ 1 (MAX_NUMBER_OF_PROCESSES - 1)) -> real_slot k.
Proof.
  intros Hin. apply list_elem_of_In, elem_of_seqZ in Hin.
  unfold real_slot. lia.
Qed.

Lemma ready_slots_spec processes k :
  In k (ready_slots processes) <-> real_slot k /\ slot_ready processes k = true.
Proof.
  unfold ready_slots. rewrite <- list_elem_of_In, list_elem_of_filter, elem_of_seqZ.
  unfold real_slot. intuition lia.
Qed.

Lemma ready_slots_length processes :
  (length (ready_slots processes) <= 7)%nat.
Proof.
  unfold ready_slots.
  etransitivity; [apply length_filter|]. by rewrite length_seqZ.
Qed.

(** What Random does for any size [numOfReadyProc] of its array. *)
Lemma Random_with_spec numOfReadyProc rnd processes current :
  table_wf processes -> 0 <= rnd -> 0 <= numOfReadyProc < 256 ->
  os_Scheduler_Random_with numOfReadyProc rnd processes current
  = if decide (numOfReadyProc < Z.of_nat (length (ready_slots processes)))
    then Fault
    else if decide (ready_slots processes = []) then Ok 0
    else match ready_slots processes
                 !! Z.to_nat (rnd mod numOfReadyProc) with
         | Some r => Ok r
         | None => Fault
         end.
Proof.
  intros Hwf Hrnd Hnum. unfold os_Scheduler_Random_with.
  change (for_range 1 MAX_NUMBER_OF_PROCESSES _ ?s)
    with (for_each (Random_collect_body processes)
            (seqZ 1 (MAX_NUMBER_OF_PROCESSES - 1)) s).
  change 0 with (Z.of_nat 0) at 1.
  rewrite Random_collect; [|done| | |].
  - fold (ready_slots processes). rewrite length_replicate.
    cbn [plus take app]. rewrite drop_replicate.
    pose proof (ready_slots_length processes) as Hlen.
    case_decide; case_decide; try lia; cbn [bind]; [|done].
    destruct (ready_slots processes) as [|r0 rs] eqn:Hrs.
    { cbn [length]. case_decide; [|done]. reflexivity. }
    case_decide; [done|].
    destruct (Z.eqb_spec (Z.of_nat (length (r0 :: rs))) 0) as [Hz|_];
      [cbn [length] in Hz; lia|].
    destruct (Z.eqb_spec numOfReadyProc 0) as [Hz|Hnz];
      [cbn [length] in *; lia|].
    rewrite Z.rem_mod_nonneg by lia.
    assert (0 <= rnd mod numOfReadyProc < numOfReadyProc) as Hrem
      by (apply Z.mod_pos_bound; lia).
    replace (uint8 (rnd mod numOfReadyProc)) with (rnd mod numOfReadyProc)
      by (unfold uint8; rewrite (Z.mod_small _ 256); lia).
    rewrite take_0, app_nil_l. unfold load. destruct (Z.ltb_spec (rnd mod numOfReadyProc) 0); [lia|].
    assert (Z.to_nat (rnd mod numOfReadyProc) < Z.to_nat numOfReadyProc)%nat
      as Ha by lia.
    generalize dependent (Z.to_nat (rnd mod numOfReadyProc)). intros a Ha.
    destruct (decide (a < length (r0 :: rs))%nat) as [Hlt|Hge].
    + rewrite lookup_app_l by (rewrite length_fmap; done).
      rewrite list_lookup_fmap.
      destruct ((r0 :: rs) !! a) as [r|] eqn:E; [done|].
      apply lookup_ge_None in E. lia.
    + rewrite lookup_app_r by (rewrite length_fmap; lia).
      rewrite length_fmap, lookup_replicate_2 by lia. cbn [bind].
      rewrite (proj2 (lookup_ge_None _ _)); [done|by apply Nat.nlt_ge].
  - intros j Hj. apply seqZ_in_range in Hj.
    unfold real_slot, in_range in *. lia.
  - rewrite length_replicate. lia.
  - lia.
Qed.

Lemma ready_upto_seqZ processes (k : nat) :
  table_wf processes -> (k <= 7)%nat ->
  ready_upto processes (Z.of_nat k + 1)
  = Z.of_nat (length (filter (fun j => slot_ready processes j = true)
                        (seqZ 1 (Z.of_nat k)))).
Proof.
  intros Hwf. induction k as [|k IH]; intros Hk.
  - unfold ready_upto. by cbn.
  - destruct (slot_ready_load processes (Z.of_nat k + 1) Hwf)
      as (p & Hp & Hr).
    { unfold in_range, MAX_NUMBER_OF_PROCESSES. lia. }
    replace (Z.of_nat (S k) + 1) with ((Z.of_nat k + 1) + 1) by lia.
    rewrite (ready_upto_step processes (Z.of_nat k + 1) p) by (done || lia).
    rewrite IH by lia. rewrite seqZ_S, filter_app, length_app.
    replace (1 + Z.of_nat k) with (Z.of_nat k + 1) by lia.
    rewrite Hr. destruct (slot_ready processes (Z.of_nat k + 1)) eqn:E.
    + rewrite filter_cons_True by done. cbn [filter list_filter length]. lia.
    + rewrite filter_cons_False by congruence.
      cbn [filter list_filter length]. lia.
Qed.

Lemma os_getNumberOfReadyProcs_ready_slots processes :
  table_wf processes ->
  os_getNumberOfReadyProcs processes
  = Z.of_nat (length (ready_slots processes)).
Proof.
  intros Hwf. rewrite <- ready_upto_all by done.
  apply (ready_upto_seqZ processes 7 Hwf). lia.
Qed.

Lemma ready_slots_NoDup processes : NoDup (ready_slots processes).
Proof. apply NoDup_filter, NoDup_seqZ. Qed.

(** X11: Random, with the helper returning the number n of READY real
    slots, returns 0 exactly when no real slot is READY.  Otherwise it
    returns the READY real slot standing at position [rnd mod n] among the
    READY real slots in increasing order; two values of [rand()] pick the
    same slot exactly when they agree modulo n, so that every READY real
    slot is picked by one residue out of n. *)
Theorem Random_picks_ready_slot_by_residue
    (rnd : Z) (processes : list Process) (current : ProcessID) :
  table_wf processes -> 0 <= rnd ->
  exists r,
    os_Scheduler_Random rnd processes current = Ok r
    /\ (r = 0 <-> forall k, real_slot k -> slot_ready processes k = false)
    /\ (r <> 0 ->
        real_slot r /\ slot_ready processes r = true
        /\ ready_slots processes
           !! Z.to_nat (rnd mod Z.of_nat (length (ready_slots processes)))
           = Some r
        /\ forall rnd', 0 <= rnd' ->
             (os_Scheduler_Random rnd' processes current = Ok r
              <-> rnd' mod Z.of_nat (length (ready_slots processes))
                  = rnd mod Z.of_nat (length (ready_slots processes)))).
Proof.
  intros Hwf Hrnd.
  pose proof (ready_slots_length processes) as Hlen.
  pose proof (ready_slots_NoDup processes) as Hnodup.
  assert (forall x, 0 <= x ->
            os_Scheduler_Random x processes current
            = if decide (ready_slots processes = []) then Ok 0
              else match ready_slots processes
                         !! Z.to_nat (x mod Z.of_nat
                                        (length (ready_slots processes))) with
                   | Some r => Ok r
                   | None => Fault
                   end) as Hspec.
  { intros x Hx.
    change (os_Scheduler_Random x processes current)
      with (os_Scheduler_Random_with
              (uint8 (os_getNumberOfReadyProcs processes)) x processes current).
    rewrite os_getNumberOfReadyProcs_ready_slots by done.
    replace (uint8 (Z.of_nat (length (ready_slots processes))))
      with (Z.of_nat (length (ready_slots processes)))
      by (unfold uint8; rewrite Z.mod_small; lia).
    rewrite Random_with_spec by (done || lia).
    case_decide; [lia|done]. }
  assert (forall r, In r (ready_slots processes) -> r <> 0) as Hnz.
  { intros r Hr. apply ready_slots_spec in Hr as [Hr _].
    unfold real_slot in Hr. lia. }
  rewrite Hspec by done.
  destruct (decide (ready_slots processes = [])) as [Hnil|Hne].
  - exists 0. split; [done|]. split; [|done]. split; [|done].
    intros _ k Hk. destruct (slot_ready processes k) eqn:E; [|done].
    assert (In k (ready_slots processes)) as Hin
      by by apply ready_slots_spec.
    rewrite Hnil in Hin. destruct Hin.
  - set (n := Z.of_nat (length (ready_slots processes))) in *.
    assert (0 < n) as Hn.
    { subst n. destruct (ready_slots processes); [done|]. cbn [length]. lia. }
    assert (forall x, 0 <= x ->
              (Z.to_nat (x mod n) < length (ready_slots processes))%nat)
      as Hidx.
    { intros x Hx. pose proof (Z.mod_pos_bound x n Hn). lia. }
    destruct (ready_slots processes !! Z.to_nat (rnd mod n)) as [r|] eqn:E.
    2:{ apply lookup_ge_None in E. specialize (Hidx rnd Hrnd).
        unfold ProcessID in *. lia. }
    assert (In r (ready_slots processes)) as Hin
      by (apply list_elem_of_In, list_elem_of_lookup; eauto).
    exists r. split; [done|]. split.
    + split; [intros ->; by apply Hnz in Hin|].
      intros Hnone. apply ready_slots_spec in Hin as [Hr Hrr].
      rewrite Hnone in Hrr by done. discriminate.
    + intros _. apply ready_slots_spec in Hin as [Hr Hrr].
      split; [done|]. split; [done|]. split; [done|].
      intros rnd' Hrnd'. rewrite Hspec by done.
      destruct (decide (ready_slots processes = [])); [done|].
      destruct (ready_slots processes !! Z.to_nat (rnd' mod n)) as [r'|] eqn:E'.
      2:{ apply lookup_ge_None in E'. specialize (Hidx rnd' Hrnd').
          unfold ProcessID in *. lia. }
      split.
      * intros [= ->].
        pose proof (NoDup_lookup _ _ _ _ Hnodup E E') as Heq.
        pose proof (Z.mod_pos_bound rnd n Hn).
        pose proof (Z.mod_pos_bound rnd' n Hn). lia.
      * intros Heq. rewrite Heq in E'. congruence.
Qed.

Lemma Random_picks_ready_slot_by_residue_witness :
  exists r,
    os_Scheduler_Random 12345 table_2_5 0 = Ok r
    /\ (r = 0 <-> forall k, real_slot k -> slot_ready table_2_5 k = false)
    /\ (r <> 0 ->
        real_slot r /\ slot_ready table_2_5 r = true
        /\ ready_slots table_2_5
           !! Z.to_nat (12345 mod Z.of_nat (length (ready_slots table_2_5)))
           = Some r
        /\ forall rnd', 0 <= rnd' ->
             (os_Scheduler_Random rnd' table_2_5 0 = Ok r
              <-> rnd' mod Z.of_nat (length (ready_slots table_2_5))
                  = 12345 mod Z.of_nat (length (ready_slots table_2_5)))).
Proof.
  apply (Random_picks_ready_slot_by_residue 12345 table_2_5 0).
  - reflexivity.
  - lia.
Defined.

(** X12: the array [procIndex] has as many elements as the helper reported.
    With no READY real slot Random returns 0 whatever was reported.  With
    fewer elements than READY real slots the collecting loop writes past the
    end of the array.  With more, a value of [rand()] whose residue reaches
    past the READY slots reads an element that was never written. *)
Theorem Random_array_size_mismatch
    (numOfReadyProc rnd : Z) (processes : list Process)
    (current : ProcessID) :
  table_wf processes -> 0 <= rnd -> 0 <= numOfReadyProc < 256 ->
  ((forall k, real_slot k -> slot_ready processes k = false) ->
   os_Scheduler_Random_with numOfReadyProc rnd processes current = Ok 0)
  /\ (numOfReadyProc < Z.of_nat (length (ready_slots processes)) ->
      os_Scheduler_Random_with numOfReadyProc rnd processes current = Fault)
  /\ (0 < Z.of_nat (length (ready_slots processes))
        <= rnd mod numOfReadyProc ->
      os_Scheduler_Random_with numOfReadyProc rnd processes current = Fault).
Proof.
  intros Hwf Hrnd Hnum. rewrite Random_with_spec by done.
  split; [|split].
  - intros Hnone.
    assert (ready_slots processes = []) as ->.
    { destruct (ready_slots processes) as [|r rs] eqn:E; [done|].
      assert (In r (ready_slots processes)) as Hin by (rewrite E; by left).
      apply ready_slots_spec in Hin as [Hr Hrr].
      rewrite Hnone in Hrr by done. discriminate. }
    cbn [length]. case_decide; [lia|]. by case_decide.
  - intros Hlt. by case_decide.
  - intros [Hpos Hge]. case_decide; [done|].
    case_decide as Hnil; [rewrite Hnil in Hpos; cbn [length] in Hpos; lia|].
    rewrite (proj2 (lookup_ge_None _ _)); [done|unfold ProcessID in *; lia].
Qed.

Lemma Random_array_size_mismatch_witness :
  os_Scheduler_Random_with 9 4711 (replicate 8 unused_slot) 0 = Ok 0
  /\ os_Scheduler_Random_with 1 4711 table_2_5 0 = Fault
  /\ os_Scheduler_Random_with 3 5 table_2_5 0 = Fault.
Proof.
  destruct (Random_array_size_mismatch 9 4711 (replicate 8 unused_slot) 0)
    as (Hnone & _ & _); [reflexivity|lia|lia|].
  destruct (Random_array_size_mismatch 1 4711 table_2_5 0)
    as (_ & Hsmall & _); [reflexivity|lia|lia|].
  destruct (Random_array_size_mismatch 3 5 table_2_5 0)
    as (_ & _ & Hlarge); [reflexivity|lia|lia|].
  split; [|split].
  - apply Hnone. intros k Hk. apply real_slot_cases in Hk.
    repeat (destruct Hk as [Hk|Hk]); subst; reflexivity.
  - apply Hsmall. vm_compute. reflexivity.
  - apply Hlarge. vm_compute. split; [reflexivity|discriminate].
Defined.

(** ** Buttons *)

Lemma os_getInput_testbit pinc1 pinc2 n :
  0 <= n ->
  Z.testbit (os_getInput pinc1 pinc2) n
  = if n =? 0 then negb (Z.testbit pinc1 0)
    else if n =? 1 then negb (Z.testbit pinc1 1)
    else if n =? 2 then negb (Z.testbit pinc2 6)
    else if n =? 3 then negb (Z.testbit pinc2 7)
    else false.
Proof.
  intros Hn. unfold os_getInput, uint8. change 256 with (2 ^ 8).
  destruct (Z.lt_ge_cases n 8) as [Hlt|Hge].
  - rewrite Z.mod_pow2_bits_low, Z.lor_spec by lia.
    rewrite Z.mod_pow2_bits_low, Z.shiftr_spec, !Z.land_spec by lia.
    rewrite !Z.lnot_spec by lia.
    assert (n = 0 \/ n = 1 \/ n = 2 \/ n = 3 \/ n = 4 \/ n = 5 \/ n = 6
            \/ n = 7) as Hcases by lia.
    repeat (destruct Hcases as [Hcases|Hcases]); subst n;
      change (Z.testbit 3 0) with true; change (Z.testbit 3 1) with true;
      cbn [Z.eqb Z.add Pos.add Pos.succ Pos.eqb];
      try (destruct (Z.testbit pinc1 _), (Z.testbit pinc2 _); reflexivity).
  - rewrite Z.mod_pow2_bits_high by lia.
    repeat (match goal with
            | |- context [?a =? ?b] => destruct (Z.eqb_spec a b); [lia|]
            end).
    done.
Qed.

(** X13: [os_getInput] yields a value below 16 whose bits 0 and 1 are the
    inverted pins 0 and 1 of the first read of [PINC] and whose bits 2 and 3
    are the inverted pins 6 and 7 of the second read: a pressed button, which
    pulls its pin low, shows as a 1. *)
Theorem os_getInput_button_bits (pinc1 pinc2 : Z) :
  0 <= os_getInput pinc1 pinc2 < 16
  /\ Z.testbit (os_getInput pinc1 pinc2) 0 = negb (Z.testbit pinc1 0)
  /\ Z.testbit (os_getInput pinc1 pinc2) 1 = negb (Z.testbit pinc1 1)
  /\ Z.testbit (os_getInput pinc1 pinc2) 2 = negb (Z.testbit pinc2 6)
  /\ Z.testbit (os_getInput pinc1 pinc2) 3 = negb (Z.testbit pinc2 7).
Proof.
  split; [|by rewrite !os_getInput_testbit by lia].
  assert (os_getInput pinc1 pinc2 = os_getInput pinc1 pinc2 mod 2 ^ 4) as ->.
  { apply Z.bits_inj'. intros n Hn.
    destruct (Z.lt_ge_cases n 4) as [Hlt|Hge].
    - by rewrite Z.mod_pow2_bits_low by lia.
    - rewrite Z.mod_pow2_bits_high, os_getInput_testbit by lia.
      repeat (match goal with
              | |- context [?a =? ?b] => destruct (Z.eqb_spec a b); [lia|]
              end).
      done. }
  apply Z.mod_pos_bound. lia.
Qed.

(** X14: [os_getInput] is 0 exactly when the pins 0 and 1 of the first read
    and the pins 6 and 7 of the second read are all high, that is when none
    of the four buttons is seen pressed; the pins 2 to 5 have no influence
    on its value. *)
Theorem os_getInput_zero_iff_released (pinc1 pinc2 : Z) :
  (os_getInput pinc1 pinc2 = 0 <->
   Z.testbit pinc1 0 = true /\ Z.testbit pinc1 1 = true
   /\ Z.testbit pinc2 6 = true /\ Z.testbit pinc2 7 = true)
  /\ forall pinc1' pinc2',
       Z.testbit pinc1' 0 = Z.testbit pinc1 0 ->
       Z.testbit pinc1' 1 = Z.testbit pinc1 1 ->
       Z.testbit pinc2' 6 = Z.testbit pinc2 6 ->
       Z.testbit pinc2' 7 = Z.testbit pinc2 7 ->
       os_getInput pinc1' pinc2' = os_getInput pinc1 pinc2.
Proof.
  split.
  - split.
    + intros Hz.
      pose proof (os_getInput_testbit pinc1 pinc2 0 ltac:(lia)) as H0.
      pose proof (os_getInput_testbit pinc1 pinc2 1 ltac:(lia)) as H1.
      pose proof (os_getInput_testbit pinc1 pinc2 2 ltac:(lia)) as H2.
      pose proof (os_getInput_testbit pinc1 pinc2 3 ltac:(lia)) as H3.
      rewrite Hz, Z.bits_0 in H0, H1, H2, H3.
      change (false = negb (Z.testbit pinc1 0)) in H0.
      change (false = negb (Z.testbit pinc1 1)) in H1.
      change (false = negb (Z.testbit pinc2 6)) in H2.
      change (false = negb (Z.testbit pinc2 7)) in H3.
      by destruct (Z.testbit pinc1 0), (Z.testbit pinc1 1),
                  (Z.testbit pinc2 6), (Z.testbit pinc2 7).
    + intros (H0 & H1 & H2 & H3). apply Z.bits_inj'. intros n Hn.
      rewrite os_getInput_testbit, Z.bits_0, H0, H1, H2, H3 by done.
      by repeat case_match.
  - intros pinc1' pinc2' H0 H1 H2 H3. apply Z.bits_inj'. intros n Hn.
    by rewrite !os_getInput_testbit, H0, H1, H2, H3 by done.
Qed.

Lemma os_getInput_zero_iff_released_witness :
  os_getInput 60 195 = os_getInput 0 192
  /\ (os_getInput 255 255 = 0 <->
      Z.testbit 255 0 = true /\ Z.testbit 255 1 = true
      /\ Z.testbit 255 6 = true /\ Z.testbit 255 7 = true).
Proof.
  destruct (os_getInput_zero_iff_released 0 192) as [_ Hpins].
  destruct (os_getInput_zero_iff_released 255 255) as [Hzero _].
  split; [|exact Hzero].
  apply Hpins; reflexivity.
Defined.

Lemma os_initInput_testbit regs n :
  0 <= n ->
  Z.testbit (DDRC (os_initInput regs)) n
  = (n <? 8) && Z.testbit (DDRC regs) n && Z.testbit 60 n
  /\ Z.testbit (PORTC (os_initInput regs)) n
     = (n <? 8) && (Z.testbit (PORTC regs) n || Z.testbit 195 n).
Proof.
  intros Hn. unfold os_initInput, uint8. cbn [DDRC PORTC].
  change 256 with (2 ^ 8).
  destruct (Z.ltb_spec n 8) as [Hlt|Hge]; cbn [andb].
  - by rewrite !Z.mod_pow2_bits_low, Z.land_spec, Z.lor_spec by lia.
  - by rewrite !Z.mod_pow2_bits_high by lia.
Qed.

(** X15: [os_initInput] makes the pins 0, 1, 6 and 7 of port C inputs with
    their pull-ups switched on, and leaves direction and output level of the
    pins 2 to 5 as they were.  Both registers stay 8-bit values, and a second
    call changes nothing. *)
Theorem os_initInput_configures_button_pins (regs : port_C) :
  (forall n, n = 0 \/ n = 1 \/ n = 6 \/ n = 7 ->
     Z.testbit (DDRC (os_initInput regs)) n = false
     /\ Z.testbit (PORTC (os_initInput regs)) n = true)
  /\ (forall n, 2 <= n <= 5 ->
        Z.testbit (DDRC (os_initInput regs)) n = Z.testbit (DDRC regs) n
        /\ Z.testbit (PORTC (os_initInput regs)) n
           = Z.testbit (PORTC regs) n)
  /\ 0 <= DDRC (os_initInput regs) < 256
  /\ 0 <= PORTC (os_initInput regs) < 256
  /\ os_initInput (os_initInput regs) = os_initInput regs.
Proof.
  split; [|split; [|split; [|split]]].
  - intros n Hn.
    destruct (os_initInput_testbit regs n ltac:(lia)) as [-> ->].
    destruct Hn as [-> | [-> | [-> | ->]]];
      by destruct (Z.testbit (DDRC regs) _), (Z.testbit (PORTC regs) _).
  - intros n Hn.
    destruct (os_initInput_testbit regs n ltac:(lia)) as [-> ->].
    assert (n = 2 \/ n = 3 \/ n = 4 \/ n = 5) as Hcases by lia.
    destruct Hcases as [-> | [-> | [-> | ->]]];
      by destruct (Z.testbit (DDRC regs) _), (Z.testbit (PORTC regs) _).
  - unfold os_initInput, uint8. cbn [DDRC]. apply Z.mod_pos_bound. lia.
  - unfold os_initInput, uint8. cbn [PORTC]. apply Z.mod_pos_bound. lia.
  - assert (DDRC (os_initInput (os_initInput regs)) = DDRC (os_initInput regs)
            /\ PORTC (os_initInput (os_initInput regs))
               = PORTC (os_initInput regs)) as [Hd Hp].
    { split; apply Z.bits_inj'; intros n Hn;
        destruct (os_initInput_testbit (os_initInput regs) n Hn) as [H1 H2];
        destruct (os_initInput_testbit regs n Hn) as [H3 H4];
        rewrite ?H1, ?H2, ?H3, ?H4;
        destruct (n <? 8), (Z.testbit (DDRC regs) n),
                 (Z.testbit (PORTC regs) n), (Z.testbit 60 n),
                 (Z.testbit 195 n); reflexivity. }
    destruct (os_initInput (os_initInput regs)) as [d p],
             (os_initInput regs) as [d' p'].
    cbn [DDRC PORTC] in Hd, Hp. by subst.
Qed.

Lemma os_initInput_configures_button_pins_witness :
  Z.testbit (DDRC (os_initInput (mkPortC 255 0))) 6 = false
  /\ Z.testbit (PORTC (os_initInput (mkPortC 255 0))) 6 = true
  /\ Z.testbit (DDRC (os_initInput (mkPortC 255 0))) 3
     = Z.testbit (DDRC (mkPortC 255 0)) 3.
Proof.
  destruct (os_initInput_configures_button_pins (mkPortC 255 0))
    as (Hbuttons & Hother & _).
  destruct (Hbuttons 6) as [Hd Hp]; [lia|].
  destruct (Hother 3) as [Hd3 _]; [lia|].
  split; [exact Hd|]. split; [exact Hp|exact Hd3].
Defined.

(** X16: the wait loops consume one pair of reads of [PINC] per iteration.
    [os_waitForInput] returns right after the first pair in which a button
    is seen pressed, and does not return as long as no button is seen;
    [os_waitForNoInput] returns right after the first pair in which no
    button is seen, and does not return as long as some button is seen. *)
Theorem wait_loops_stop_at_first_change
    (before : list (Z * Z)) (pinc1 pinc2 : Z) (after : list (Z * Z)) :
  (Forall (fun r => os_getInput r.1 r.2 = 0) before ->
   (os_getInput pinc1 pinc2 <> 0 ->
    os_waitForInput (before ++ (pinc1, pinc2) :: after) = Ok after)
   /\ os_waitForInput before = OutOfFuel)
  /\ (Forall (fun r => os_getInput r.1 r.2 <> 0) before ->
      (os_getInput pinc1 pinc2 = 0 ->
       os_waitForNoInput (before ++ (pinc1, pinc2) :: after) = Ok after)
      /\ os_waitForNoInput before = OutOfFuel).
Proof.
  split.
  - intros Hquiet. induction Hquiet as [|[a b] before Hab _ [IH1 IH2]].
    + split; [|done]. intros Hpress. cbn [app os_waitForInput].
      by destruct (Z.eqb_spec (os_getInput pinc1 pinc2) 0).
    + cbn [fst snd] in Hab. cbn [app os_waitForInput].
      rewrite Hab. by cbn [Z.eqb].
  - intros Hheld. induction Hheld as [|[a b] before Hab _ [IH1 IH2]].
    + split; [|done]. intros Hfree. cbn [app os_waitForNoInput].
      rewrite Hfree. by cbn [Z.eqb negb].
    + cbn [fst snd] in Hab. cbn [app os_waitForNoInput].
      by destruct (Z.eqb_spec (os_getInput a b) 0).
Qed.

Lemma wait_loops_stop_at_first_change_witness :
  os_waitForInput ([(255, 255); (255, 255)] ++ (254, 255) :: [(0, 0)])
  = Ok [(0, 0)]
  /\ os_waitForNoInput ([(254, 255); (255, 127)] ++ (255, 255) :: [(0, 0)])
     = Ok [(0, 0)].
Proof.
  destruct (wait_loops_stop_at_first_change
              [(255, 255); (255, 255)] 254 255 [(0, 0)]) as [Hin _].
  destruct (wait_loops_stop_at_first_change
              [(254, 255); (255, 127)] 255 255 [(0, 0)]) as [_ Hno].
  split.
  - apply Hin; [|by vm_compute]. repeat constructor.
  - apply Hno; [|by vm_compute]. repeat constructor; by vm_compute.
Defined.
